(** * PasteMD: hotkey recording, hotkey validation and CF_HTML extraction

    A shallow embedding of
    - [pastemd/utils/win32/hotkey_checker.py]  (module [HotkeyChecker]),
    - [pastemd/domains/hotkey/recorder.py]      (module [HotkeyRecorder]),
    - [pastemd/utils/clipboard.py]              (module [Clipboard]),
    together with the properties the specification states about them.

    Python values are represented as follows.
    - [str] and [bytes] are both Rocq strings, one [ascii] per character
      or byte.  For [str] this covers the code points below U+0100; the
      character classes used below (white space, digits, line boundaries,
      lower case) are the interpreter's on that range.
    - [Set[str]] is [gset string]; a [dict] with [str] keys is a [gmap].
    - Python [int] is [Z].
    - An exception is a value of [exn] carried by [result]. *)

From stdpp Require Import gmap strings list sorting pretty.
From Stdlib Require Import ZArith Ascii String.

Local Open Scope string_scope.
Local Open Scope list_scope.
Local Open Scope Z_scope.

(** ** The interpreter's string operations *)

Module Py.

Definition code (c : ascii) : N := N_of_ascii c.
Definition chr (n : N) : ascii := ascii_of_N n.

Definition between (lo hi : N) (c : ascii) : bool :=
  ((lo <=? code c) && (code c <=? hi))%N.

(** [str.isspace] on one character. *)
Definition is_space (c : ascii) : bool :=
  between 9 13 c || between 28 32 c || (code c =? 133)%N || (code c =? 160)%N.

(** White space that [int] passes over around a number: the separators
    U+001C to U+001F are not among it. *)
Definition is_space_int (c : ascii) : bool :=
  between 9 13 c || (code c =? 32)%N || (code c =? 133)%N || (code c =? 160)%N.

(** White space of [bytes.strip]. *)
Definition is_space_byte (c : ascii) : bool :=
  between 9 13 c || (code c =? 32)%N.

(** [str.isdigit] on one character: the decimal digits and the three
    superscript digits of the range. *)
Definition is_digit (c : ascii) : bool :=
  between 48 57 c || (code c =? 178)%N || (code c =? 179)%N || (code c =? 185)%N.

(** The characters that [bytes.decode] for ASCII keeps. *)
Definition is_ascii (c : ascii) : bool := (code c <? 128)%N.

(** The digits [int] accepts. *)
Definition is_decimal (c : ascii) : bool := between 48 57 c.

Definition is_upper (c : ascii) : bool :=
  between 65 90 c || (between 192 222 c && negb (code c =? 215)%N).

Definition is_lower_with_upper (c : ascii) : bool :=
  between 97 122 c || (between 224 254 c && negb (code c =? 247)%N).

(** Characters with the Unicode property Cased. *)
Definition is_cased (c : ascii) : bool :=
  between 65 90 c || between 97 122 c
  || (code c =? 170)%N || (code c =? 181)%N || (code c =? 186)%N
  || (between 192 255 c && negb (code c =? 215)%N && negb (code c =? 247)%N).

Definition lower_char (c : ascii) : ascii :=
  if is_upper c then chr (code c + 32) else c.

(** Upper case of one character, which can be two characters: U+00DF
    becomes SS.  The upper-case images of U+00B5 and U+00FF lie outside
    the range and these two characters are left as they are. *)
Definition upper_char (c : ascii) : string :=
  if (code c =? 223)%N then "SS"
  else String (if is_lower_with_upper c then chr (code c - 32) else c)
              EmptyString.

(** Title case of one character: its upper case, except that U+00DF
    becomes Ss. *)
Definition title_char (c : ascii) : string :=
  if (code c =? 223)%N then "Ss" else upper_char c.

Fixpoint map_chars (f : ascii → ascii) (s : string) : string :=
  match s with
  | EmptyString => EmptyString
  | String c s' => String (f c) (map_chars f s')
  end.

Definition lower : string → string := map_chars lower_char.

Fixpoint upper (s : string) : string :=
  match s with
  | EmptyString => EmptyString
  | String c s' => upper_char c +:+ upper s'
  end.

(** [str.title]: a cased character is put in title case when the
    character before it is not cased, in lower case otherwise. *)
Fixpoint title_from (previous_is_cased : bool) (s : string) : string :=
  match s with
  | EmptyString => EmptyString
  | String c s' =>
      (if previous_is_cased then String (lower_char c) EmptyString
       else title_char c)
      +:+ title_from (is_cased c) s'
  end.

Definition title : string → string := title_from false.

Fixpoint forall_chars (p : ascii → bool) (s : string) : bool :=
  match s with
  | EmptyString => true
  | String c s' => p c && forall_chars p s'
  end.

Definition nonempty (s : string) : bool :=
  match s with EmptyString => false | _ => true end.

Definition isdigit (s : string) : bool := nonempty s && forall_chars is_digit s.

(** [len], as a Python [int]. *)
Definition len (s : string) : Z := Z.of_nat (String.length s).

Fixpoint lstrip (sp : ascii → bool) (s : string) : string :=
  match s with
  | EmptyString => EmptyString
  | String c s' => if sp c then lstrip sp s' else s
  end.

Fixpoint rstrip (sp : ascii → bool) (s : string) : string :=
  match s with
  | EmptyString => EmptyString
  | String c s' =>
      match rstrip sp s' with
      | EmptyString => if sp c then EmptyString else String c EmptyString
      | r => String c r
      end
  end.

(** [str.strip()] and [bytes.strip()]. *)
Definition strip (s : string) : string := rstrip is_space (lstrip is_space s).
Definition strip_bytes (s : string) : string :=
  rstrip is_space_byte (lstrip is_space_byte s).

Fixpoint startswith (prefix s : string) : bool :=
  match prefix, s with
  | EmptyString, _ => true
  | String p prefix', String c s' => bool_decide (p = c) && startswith prefix' s'
  | String _ _, EmptyString => false
  end.

Fixpoint drop (n : nat) (s : string) : string :=
  match n, s with
  | O, _ => s
  | S n', String _ s' => drop n' s'
  | S _, EmptyString => EmptyString
  end.

Fixpoint take (n : nat) (s : string) : string :=
  match n, s with
  | O, _ => EmptyString
  | S n', String c s' => String c (take n' s')
  | S _, EmptyString => EmptyString
  end.

(** [s.find(sub)]: index of the first occurrence. *)
Fixpoint find (sub s : string) : option nat :=
  if startswith sub s then Some O
  else match s with
       | EmptyString => None
       | String _ s' => S <$> find sub s'
       end.

(** [s.rfind(sub)]: index of the last occurrence. *)
Fixpoint rfind (sub s : string) : option nat :=
  match s with
  | EmptyString => if startswith sub s then Some O else None
  | String _ s' =>
      match rfind sub s' with
      | Some i => Some (S i)
      | None => if startswith sub s then Some O else None
      end
  end.

(** [sep in s] for a one-character separator, and [s.split(sep, 1)] when
    the separator occurs: the text before and after its first occurrence. *)
Fixpoint contains_char (sep : ascii) (s : string) : bool :=
  match s with
  | EmptyString => false
  | String c s' => bool_decide (c = sep) || contains_char sep s'
  end.

Fixpoint split_once (sep : ascii) (s : string) : string * string :=
  match s with
  | EmptyString => (EmptyString, EmptyString)
  | String c s' =>
      if bool_decide (c = sep) then (EmptyString, s')
      else let '(k, v) := split_once sep s' in (String c k, v)
  end.

(** [s.replace(old, new)] for a non-empty [old]: occurrences are replaced
    from left to right without overlap.  [skip] counts the characters of
    the occurrence just replaced that are still to be passed over. *)
Fixpoint replace_from (skip : nat) (old new s : string) : string :=
  match s with
  | EmptyString => EmptyString
  | String c s' =>
      match skip with
      | S k => replace_from k old new s'
      | O =>
          if startswith old s
          then new +:+ replace_from (String.length old - 1) old new s'
          else String c (replace_from O old new s')
      end
  end.

Definition replace : string → string → string → string := replace_from O.

(** [sep.join(parts)]. *)
Fixpoint join (sep : string) (parts : list string) : string :=
  match parts with
  | [] => EmptyString
  | [p] => p
  | p :: rest => p +:+ sep +:+ join sep rest
  end.

(** [splitlines]: the lines of [s] without their terminators; carriage
    return followed by line feed is one terminator.  [cur] holds the
    characters of the line being read, last one first. *)
Fixpoint splitlines_from (brk : ascii → bool) (cur s : string) : list string :=
  match s with
  | EmptyString =>
      match cur with EmptyString => [] | _ => [String.rev cur] end
  | String c s' =>
      if bool_decide (c = "013"%char) then
        match s' with
        | String "010"%char s'' => String.rev cur :: splitlines_from brk EmptyString s''
        | _ => String.rev cur :: splitlines_from brk EmptyString s'
        end
      else if brk c then String.rev cur :: splitlines_from brk EmptyString s'
      else splitlines_from brk (String c cur) s'
  end.

(** Line boundaries of [str.splitlines] (besides carriage return). *)
Definition is_linebreak (c : ascii) : bool :=
  between 10 12 c || between 28 30 c || (code c =? 133)%N.

(** Line boundaries of [bytes.splitlines] (besides carriage return). *)
Definition is_linebreak_byte (c : ascii) : bool := (code c =? 10)%N.

Definition splitlines : string → list string :=
  splitlines_from is_linebreak EmptyString.
Definition splitlines_bytes : string → list string :=
  splitlines_from is_linebreak_byte EmptyString.

(** [s[start:stop]] with the interpreter's treatment of negative and
    out-of-range bounds. *)
Definition clamp_index (n i : Z) : Z :=
  if i <? 0 then Z.max 0 (i + n) else Z.min i n.

Definition slice (s : string) (start stop : Z) : string :=
  let lo := clamp_index (len s) start in
  let hi := clamp_index (len s) stop in
  take (Z.to_nat (hi - lo)) (drop (Z.to_nat lo) s).

(** [bytes.decode("ascii", errors="ignore")]. *)
Fixpoint decode_ascii_ignore (s : string) : string :=
  match s with
  | EmptyString => EmptyString
  | String c s' =>
      if is_ascii c then String c (decode_ascii_ignore s')
      else decode_ascii_ignore s'
  end.

(** [bytes.decode] for UTF-8 with the error handler that ignores: the
    code points of the well-formed sequences, every ill-formed part being
    passed over (a lead byte with the continuation bytes that could still
    belong to it; everything left when the data ends inside a sequence). *)
Definition is_continuation (c : ascii) : bool := between 128 191 c.

Definition second_byte_ok (lead : N) (c : ascii) : bool :=
  is_continuation c
  && (if (lead =? 224)%N then (160 <=? code c)%N
      else if (lead =? 237)%N then (code c <? 160)%N
      else if (lead =? 240)%N then (144 <=? code c)%N
      else if (lead =? 244)%N then (code c <? 144)%N
      else true).

Definition payload (c : ascii) : N := (code c - 128)%N.

Fixpoint utf8_decode_ignore (s : string) : list N :=
  match s with
  | EmptyString => []
  | String b0 s1 =>
      let lead := code b0 in
      if (lead <? 128)%N then lead :: utf8_decode_ignore s1
      else if (lead <? 194)%N then utf8_decode_ignore s1
      else if (lead <? 224)%N then
        match s1 with
        | EmptyString => []
        | String b1 s2 =>
            if is_continuation b1
            then ((lead - 192) * 64 + payload b1)%N :: utf8_decode_ignore s2
            else utf8_decode_ignore s1
        end
      else if (lead <? 240)%N then
        match s1 with
        | EmptyString => []
        | String b1 s2 =>
            if second_byte_ok lead b1 then
              match s2 with
              | EmptyString => []
              | String b2 s3 =>
                  if is_continuation b2
                  then ((lead - 224) * 4096 + payload b1 * 64 + payload b2)%N
                       :: utf8_decode_ignore s3
                  else utf8_decode_ignore s2
              end
            else utf8_decode_ignore s1
        end
      else if (lead <? 245)%N then
        match s1 with
        | EmptyString => []
        | String b1 s2 =>
            if second_byte_ok lead b1 then
              match s2 with
              | EmptyString => []
              | String b2 s3 =>
                  if is_continuation b2 then
                    match s3 with
                    | EmptyString => []
                    | String b3 s4 =>
                        if is_continuation b3
                        then ((lead - 240) * 262144 + payload b1 * 4096
                              + payload b2 * 64 + payload b3)%N
                             :: utf8_decode_ignore s4
                        else utf8_decode_ignore s3
                    end
                  else utf8_decode_ignore s2
              end
            else utf8_decode_ignore s1
        end
      else utf8_decode_ignore s1
  end.

(** *** Exceptions *)

Inductive exn := ValueError | TypeError.

Inductive result (A : Type) : Type :=
| Ok (a : A)
| Raise (e : exn).
Arguments Ok {A} a.
Arguments Raise {A} e.

#[global] Instance result_bind : MBind result := λ A B k r,
  match r with
  | Ok a => k a
  | Raise e => Raise e
  end.

(** [try: body  except Exception: handler] *)
Definition try_except {A} (body : result A) (handler : result A) : result A :=
  match body with
  | Ok a => Ok a
  | Raise _ => handler
  end.

(** *** [int(str)] *)

Definition digit_value (c : ascii) : Z := Z.of_N (code c) - 48.

(** Decimal digits, single underscores allowed between two digits.
    [acc] is the value read so far, [after_digit] tells whether the
    previous character was a digit. *)
Fixpoint parse_decimal (acc : Z) (after_digit : bool) (s : string) : option Z :=
  match s with
  | EmptyString => if after_digit then Some acc else None
  | String c s' =>
      if is_decimal c then parse_decimal (10 * acc + digit_value c) true s'
      else if bool_decide (c = "_"%char) && after_digit
           then match s' with
                | EmptyString => None
                | String d _ => if is_decimal d then parse_decimal acc false s' else None
                end
      else None
  end.

(** [int(s)] in base ten: surrounding white space and one sign are
    accepted; anything else that is not a decimal literal raises
    [ValueError].  (The interpreter's optional bound on the number of
    digits is not part of the model.) *)
Definition int (s : string) : result Z :=
  let body := rstrip is_space_int (lstrip is_space_int s) in
  let '(negative, digits) :=
    match body with
    | String "-"%char r => (true, r)
    | String "+"%char r => (false, r)
    | _ => (false, body)
    end in
  match parse_decimal 0 false digits with
  | Some n => Ok (if negative then - n else n)
  | None => Raise ValueError
  end.

(** [sorted] on strings: the order is the lexicographic order on code
    points. *)
Definition str_le (a b : string) : Prop := String.leb a b = true.

#[global] Instance str_le_dec a b : Decision (str_le a b).
Proof. unfold str_le. apply _. Defined.

Definition sorted : list string → list string := merge_sort str_le.

End Py.

(** ** [pastemd/utils/win32/hotkey_checker.py] *)

(** The i18n lookup [t] is not among the verified sources.  A localized
    text is kept as the request made to it: [t key] for [t(key)] and
    [t_combo key c] for [t(key, combo=c)].  [Plain] is an ordinary [str].
    A localized text is taken to be a non-empty [str]. *)
Inductive text : Type :=
| Plain (s : string)
| t (key : string)
| t_combo (key : string) (combo : text).

Module HotkeyChecker.
Import Py.

Definition MODIFIER_KEYS : gset string :=
  {["ctrl"; "shift"; "alt"; "cmd"; "win"]}.

(** The dictionary, in insertion order, which is the order in which
    [items()] yields it. *)
Definition SYSTEM_HOTKEY_DESCRIPTIONS : list (list string * string) :=
  [ (["ctrl"; "c"], "hotkey.recorder.system.ctrl_c");
    (["ctrl"; "v"], "hotkey.recorder.system.ctrl_v");
    (["ctrl"; "x"], "hotkey.recorder.system.ctrl_x");
    (["ctrl"; "z"], "hotkey.recorder.system.ctrl_z");
    (["ctrl"; "y"], "hotkey.recorder.system.ctrl_y");
    (["ctrl"; "a"], "hotkey.recorder.system.ctrl_a");
    (["ctrl"; "s"], "hotkey.recorder.system.ctrl_s");
    (["ctrl"; "f"], "hotkey.recorder.system.ctrl_f");
    (["ctrl"; "p"], "hotkey.recorder.system.ctrl_p");
    (["ctrl"; "n"], "hotkey.recorder.system.ctrl_n");
    (["ctrl"; "w"], "hotkey.recorder.system.ctrl_w");
    (["ctrl"; "t"], "hotkey.recorder.system.ctrl_t");
    (["alt"; "f4"], "hotkey.recorder.system.alt_f4") ].

(** The value returned from inside the loop for the entry that matches. *)
Definition reserved_error (hotkey_repr : string) (detailed : bool)
    (combo : list string) (desc_key : string) : text :=
  if detailed then
    t_combo "hotkey.recorder.error.system_reserved_long" (t desc_key)
  else
    let combo_text :=
      if nonempty hotkey_repr then upper hotkey_repr
      else upper (join "+" combo) in
    t_combo "hotkey.recorder.error.system_reserved_short" (Plain combo_text).

(** [for combo, desc_key in SYSTEM_HOTKEY_DESCRIPTIONS.items(): ...] *)
Fixpoint scan_reserved (keys : gset string) (hotkey_repr : string)
    (detailed : bool) (items : list (list string * string)) : option text :=
  match items with
  | [] => None
  | (combo, desc_key) :: rest =>
      if bool_decide (keys = list_to_set combo)
      then Some (reserved_error hotkey_repr detailed combo desc_key)
      else scan_reserved keys hotkey_repr detailed rest
  end.

Definition validate_hotkey_keys (keys : gset string) (hotkey_repr : string)
    (detailed : bool) : option text :=
  let has_modifier := bool_decide (keys ∩ MODIFIER_KEYS ≠ ∅) in
  let has_normal_key := bool_decide (keys ∖ MODIFIER_KEYS ≠ ∅) in
  if negb has_modifier then
    Some (t "hotkey.recorder.error.no_modifier")
  else if negb has_normal_key then
    Some (t "hotkey.recorder.error.no_normal_key")
  else if bool_decide (keys ∩ MODIFIER_KEYS = {["shift"]}) then
    let translation_key :=
      if detailed then "hotkey.recorder.error.shift_only_long"
      else "hotkey.recorder.error.shift_only_short" in
    Some (t translation_key)
  else
    scan_reserved keys hotkey_repr detailed SYSTEM_HOTKEY_DESCRIPTIONS.

End HotkeyChecker.

(** ** [pastemd/domains/hotkey/recorder.py] *)

Module HotkeyRecorder.
Import Py.

(** What the keyboard listener hands to the handlers: a member of the
    enumeration [keyboard.Key], known by its [name]; a [KeyCode] object,
    which has the attributes [vk] and [char], each possibly [None]; or
    [None] for a key the listener could not identify. *)
Inductive key : Type :=
| Key (name : string)
| KeyCode (vk : option Z) (char : option string)
| NoKey.

(** An invocation of one of the caller's callbacks. *)
Inductive call : Type :=
| on_update (display : string)
| on_finish (hotkey : option string) (error : option text).

(** The recorder object.  The two callbacks and the listener are held or
    [None]; only that is recorded.  [calls] is not a field of the object:
    it lists the callback invocations made so far, oldest first.  What a
    callback does is the caller's; an exception it raises never changes
    the object, and the call is listed all the same. *)
Record recorder : Type := {
  recording : bool;
  pressed_keys : gset string;
  released_keys : gset string;
  all_pressed_keys : gset string;
  recording_listener : bool;
  on_update_callback : bool;
  on_finish_callback : bool;
  calls : list call;
}.

Definition __init__ : recorder := {|
  recording := false;
  pressed_keys := ∅;
  released_keys := ∅;
  all_pressed_keys := ∅;
  recording_listener := false;
  on_update_callback := false;
  on_finish_callback := false;
  calls := [];
|}.

Definition invoke (c : call) (self : recorder) : recorder := {|
  recording := recording self;
  pressed_keys := pressed_keys self;
  released_keys := released_keys self;
  all_pressed_keys := all_pressed_keys self;
  recording_listener := recording_listener self;
  on_update_callback := on_update_callback self;
  on_finish_callback := on_finish_callback self;
  calls := calls self ++ [c];
|}.

Definition start_recording (on_update on_finish : bool) (self : recorder)
    : recorder :=
  if recording self then self
  else {|
    recording := true;
    pressed_keys := ∅;
    released_keys := ∅;
    all_pressed_keys := ∅;
    recording_listener := true;
    on_update_callback := on_update;
    on_finish_callback := on_finish;
    calls := calls self;
  |}.

Definition stop_recording (self : recorder) : recorder := {|
  recording := false;
  pressed_keys := ∅;
  released_keys := ∅;
  all_pressed_keys := ∅;
  recording_listener := false;
  on_update_callback := on_update_callback self;
  on_finish_callback := on_finish_callback self;
  calls := calls self;
|}.

(** The body of [_get_key_name] inside its [try]. *)
Definition get_key_name_body (k : key) : result (option string) :=
  match k with
  | Key name =>
      if bool_decide (name ∈ ["ctrl"; "ctrl_l"; "ctrl_r"]) then Ok (Some "ctrl")
      else if bool_decide (name ∈ ["shift"; "shift_l"; "shift_r"]) then Ok (Some "shift")
      else if bool_decide (name ∈ ["alt"; "alt_l"; "alt_r"]) then Ok (Some "alt")
      else if bool_decide (name = "cmd") then Ok (Some "cmd")
      else Ok (Some (lower name))
  | KeyCode vk char =>
      let from_char : result (option string) :=
        match char with
        | Some (String c rest as ch) =>
            (* [ord] of a longer string raises *)
            if nonempty rest then Raise TypeError
            else if (32 <=? code c)%N then Ok (Some (lower ch))
            else Ok None
        | _ => Ok None
        end in
      match vk with
      | None => Raise TypeError       (* [65 <= None] *)
      | Some vk =>
          if (65 <=? vk) && (vk <=? 90)
          then Ok (Some (lower (String (chr (Z.to_N vk)) EmptyString)))
          else if (48 <=? vk) && (vk <=? 57)
          then Ok (Some (String (chr (Z.to_N vk)) EmptyString))
          else if (96 <=? vk) && (vk <=? 105)
          then Ok (Some ("num" +:+ pretty (vk - 96)))
          else from_char
      end
  | NoKey => Ok None
  end.

Definition _get_key_name (k : key) : option string :=
  match get_key_name_body k with
  | Ok name => name
  | Raise _ => None
  end.

Definition modifier_order : list string := ["ctrl"; "shift"; "alt"; "cmd"].

(** [_format_keys_for_display], for a given order in which the loop over
    the set meets its elements. *)
Definition display_in_order (iteration : list string) (all : gset string)
    : string :=
  if bool_decide (all = ∅) then EmptyString
  else
    let modifiers := filter (λ modifier, modifier ∈ all) modifier_order in
    let keys := filter (λ key, key ∉ modifier_order) iteration in
    let all_keys := modifiers ++ sorted keys in
    join " + " (title <$> all_keys).

Definition _format_keys_for_display (self : recorder) : string :=
  display_in_order (elements (all_pressed_keys self)) (all_pressed_keys self).

Definition bracket (s : string) : string := "<" +:+ s +:+ ">".

(** [_generate_hotkey_string], likewise. *)
Definition hotkey_string_in_order (iteration : list string)
    (all : gset string) : string :=
  let modifiers := bracket <$> filter (λ modifier, modifier ∈ all) modifier_order in
  let keys :=
    (λ key, if (1 <? len key) then bracket key else key)
      <$> filter (λ key, key ∉ modifier_order) iteration in
  join "+" (modifiers ++ sorted keys).

Definition _generate_hotkey_string (self : recorder) : string :=
  hotkey_string_in_order (elements (all_pressed_keys self))
                         (all_pressed_keys self).

Definition _notify_update (self : recorder) : recorder :=
  if on_update_callback self && bool_decide (all_pressed_keys self ≠ ∅)
  then invoke (on_update (_format_keys_for_display self)) self
  else self.

Definition _validate_hotkey (self : recorder) : option text :=
  let hotkey_preview := replace " + " "+" (_format_keys_for_display self) in
  HotkeyChecker.validate_hotkey_keys (all_pressed_keys self) hotkey_preview true.

Definition _finish_recording (self : recorder) : recorder :=
  if bool_decide (all_pressed_keys self = ∅) then
    let self := stop_recording self in
    if on_finish_callback self
    then invoke (on_finish None (Some (t "hotkey.recorder.error.no_key_detected"))) self
    else self
  else
    let error := _validate_hotkey self in
    let hotkey_str :=
      match error with
      | Some _ => None
      | None => Some (_generate_hotkey_string self)
      end in
    let self := stop_recording self in
    if on_finish_callback self
    then invoke (on_finish hotkey_str error) self
    else self.

Definition with_press (key_name : string) (self : recorder) : recorder := {|
  recording := recording self;
  pressed_keys := {[key_name]} ∪ pressed_keys self;
  released_keys := released_keys self;
  all_pressed_keys := {[key_name]} ∪ all_pressed_keys self;
  recording_listener := recording_listener self;
  on_update_callback := on_update_callback self;
  on_finish_callback := on_finish_callback self;
  calls := calls self;
|}.

Definition with_release (key_name : string) (self : recorder) : recorder := {|
  recording := recording self;
  pressed_keys := pressed_keys self ∖ {[key_name]};
  released_keys := {[key_name]} ∪ released_keys self;
  all_pressed_keys := all_pressed_keys self;
  recording_listener := recording_listener self;
  on_update_callback := on_update_callback self;
  on_finish_callback := on_finish_callback self;
  calls := calls self;
|}.

Definition _on_key_press (k : key) (self : recorder) : recorder :=
  if negb (recording self) then self
  else
    match _get_key_name k with
    | Some key_name =>
        if nonempty key_name then _notify_update (with_press key_name self)
        else self
    | None => self
    end.

(** The handler's return value tells the listener whether to go on. *)
Definition _on_key_release (k : key) (self : recorder) : bool * recorder :=
  if negb (recording self) then (false, self)
  else
    match _get_key_name k with
    | Some key_name =>
        if nonempty key_name then
          let self := with_release key_name self in
          if bool_decide (all_pressed_keys self ≠ ∅)
             && bool_decide (all_pressed_keys self = released_keys self)
          then (false, _finish_recording self)
          else (true, self)
        else (true, self)
    | None => (true, self)
    end.

(** Key events as the listener delivers them. *)
Inductive event : Type :=
| press (k : key)
| release (k : key).

Definition handle (self : recorder) (ev : event) : recorder :=
  match ev with
  | press k => _on_key_press k self
  | release k => (_on_key_release k self).2
  end.

Definition deliver (events : list event) (self : recorder) : recorder :=
  foldl handle self events.

(** What a handler looks at in an event: its kind and the key's name. *)
Definition event_name (ev : event) : bool * option string :=
  match ev with
  | press k => (true, _get_key_name k)
  | release k => (false, _get_key_name k)
  end.

(** A member of [keyboard.Key] for a name. *)
Definition key_named (name : option string) : key :=
  match name with
  | Some n => Key n
  | None => NoKey
  end.

(** The names of the keys of the chord ctrl, alt, a. *)
Definition chord : list (option string) := [Some "ctrl"; Some "alt"; Some "a"].

Definition is_on_finish (c : call) : bool :=
  match c with
  | on_finish _ _ => true
  | on_update _ => false
  end.

Definition is_on_update (c : call) : bool := negb (is_on_finish c).


End HotkeyRecorder.

(** ** [pastemd/utils/clipboard.py] *)

Module Clipboard.
Import Py.

(** A tier of the extraction either returns a value ([Some]) or lets
    control fall through to what follows ([None]). *)
Definition otherwise {A} (tier : result (option A)) (next : result A)
    : result A :=
  r ← tier; match r with Some a => Ok a | None => next end.

(** The [re.search] for the opening comment, any characters (line ends
    included, the flag being [re.S]) and the closing comment, and its
    group 1.  The leftmost match starts at the first opening comment; the
    greedy group then reaches to the last closing comment after it.  If
    no closing comment follows the first opening comment, none follows a
    later one either, and there is no match. *)
Definition search_fragment (s : string) : option string :=
  i ← find "<!--StartFragment-->" s;
  let rest := drop (i + 20) s in
  j ← rfind "<!--EndFragment-->" rest;
  Some (take j rest).

(** The header loop of the [bytes] variant: [meta] as it stands after
    the lines read. *)
Fixpoint read_meta_bytes (lines : list string) (meta : gmap string string)
    : gmap string string :=
  match lines with
  | [] => meta
  | raw_line :: rest =>
      let stripped := strip_bytes raw_line in
      if startswith "<!--" stripped then meta
      else if contains_char ":" raw_line then
        let '(k, v) := split_once ":" raw_line in
        let key := strip (decode_ascii_ignore k) in
        let val := strip (decode_ascii_ignore v) in
        read_meta_bytes rest (if nonempty key then <[key := val]> meta else meta)
      else read_meta_bytes rest meta
  end.

(** The header loop of the [str] variant. *)
Fixpoint read_meta (lines : list string) (meta : gmap string string)
    : gmap string string :=
  match lines with
  | [] => meta
  | line :: rest =>
      if startswith "<!--" (strip line) then meta
      else if contains_char ":" line then
        let '(k, v) := split_once ":" line in
        read_meta rest (<[strip k := strip v]> meta)
      else read_meta rest meta
  end.

Section bytes_variant.

(** The text type of the interpreter and its UTF-8 codec with
    [errors="ignore"]; the extraction only passes bytes to it. *)
Context {unicode : Type} (decode_utf8_ignore : string → unicode).

Definition _extract_html_fragment_bytes (cf_html_bytes : string)
    : result unicode :=
  let meta := read_meta_bytes (splitlines_bytes cf_html_bytes) ∅ in
  let sf := default "" (meta !! "StartFragment") in
  let ef := default "" (meta !! "EndFragment") in
  otherwise
    (if isdigit sf && isdigit ef then
       try_except
         (start_fragment ← int sf;
          end_fragment ← int ef;
          if (0 <=? start_fragment) && (start_fragment <=? end_fragment)
             && (end_fragment <=? len cf_html_bytes)
          then Ok (Some (decode_utf8_ignore
                           (slice cf_html_bytes start_fragment end_fragment)))
          else Ok None)
         (Ok None)
     else Ok None)
    (match search_fragment cf_html_bytes with
     | Some group1 => Ok (decode_utf8_ignore group1)
     | None =>
         let start_html := default "0" (meta !! "StartHTML") in
         let end_html :=
           default (pretty (len cf_html_bytes)) (meta !! "EndHTML") in
         otherwise
           (try_except
              (start ← (if isdigit start_html then int start_html else Ok 0);
               end_ ← (if isdigit end_html then int end_html
                       else Ok (len cf_html_bytes));
               if (0 <=? start) && (start <=? end_)
                  && (end_ <=? len cf_html_bytes)
               then Ok (Some (decode_utf8_ignore (slice cf_html_bytes start end_)))
               else Ok None)
              (Ok None))
           (Ok (decode_utf8_ignore cf_html_bytes))
     end).

End bytes_variant.

(** Truth value of the result of [meta.get(key)]. *)
Definition truthy (v : option string) : bool :=
  match v with
  | Some s => nonempty s
  | None => false
  end.

Definition _extract_html_fragment (cf_html : string) : result string :=
  let meta := read_meta (splitlines cf_html) ∅ in
  let sf := meta !! "StartFragment" in
  let ef := meta !! "EndFragment" in
  otherwise
    (if truthy sf && truthy ef
        && isdigit (default "" sf) && isdigit (default "" ef) then
       try_except
         (start_fragment ← int (default "" sf);
          end_fragment ← int (default "" ef);
          Ok (Some (slice cf_html start_fragment end_fragment)))
         (Ok None)
     else Ok None)
    (match search_fragment cf_html with
     | Some group1 => Ok group1
     | None =>
         start_html ← int (default "0" (meta !! "StartHTML"));
         end_html ← int (default (pretty (len cf_html)) (meta !! "EndHTML"));
         try_except (Ok (slice cf_html start_html end_html)) (Ok cf_html)
     end).

(** *** The CF_HTML poll *)

(** What the clipboard holds under the format: [bytes] or [str]. *)
Inductive clip : Type :=
| Bytes (b : string)
| Str (s : string).

(** What the calls of [win32clipboard] do during one pass through the
    loop body: each returns a value or raises. *)
Record attempt : Type := {
  OpenClipboard : result unit;
  IsClipboardFormatAvailable : result bool;
  GetClipboardData : result (option clip);
  CloseClipboard : result unit;
}.

(** A pass that neither reads data nor finds the format unavailable:
    opening the clipboard, the availability check or the read raises, or
    the read gives [None]. *)
Definition inconclusive (a : attempt) : Prop :=
  (∃ e, OpenClipboard a = Raise e)
  ∨ (∃ e, IsClipboardFormatAvailable a = Raise e)
  ∨ (IsClipboardFormatAvailable a = Ok true
     ∧ ((∃ e, GetClipboardData a = Raise e) ∨ GetClipboardData a = Ok None)).

(** [try: body  finally: cleanup] *)
Definition try_finally {A} (body : result A) (cleanup : result unit)
    : result A :=
  match cleanup with
  | Ok _ => body
  | Raise e => Raise e
  end.

(** One pass through the loop body.  [Some r]: the function returns
    [r]; [None]: the pass ends with [time.sleep] and the loop goes on. *)
Definition attempt_once (a : attempt) : result (option (option clip)) :=
  match OpenClipboard a with
  | Raise _ => Ok None
  | Ok _ =>
      try_finally
        (let available : option bool :=
           match IsClipboardFormatAvailable a with
           | Ok b => Some b
           | Raise _ => None
           end in
         match available with
         | Some false => Ok (Some None)
         | Some true =>
             try_except
               (data ← GetClipboardData a;
                match data with
                | None => Ok None
                | Some d => Ok (Some (Some d))
                end)
               (Ok None)
         | None => Ok None
         end)
        (try_except (CloseClipboard a) (Ok ()))
  end.

(** The loop.  [attempts] lists the passes that begin before the
    deadline, that is for which [time.monotonic() < deadline] holds; when
    it is used up the deadline has passed.  The passes that were not
    begun are returned with the result. *)
Fixpoint poll (attempts : list attempt)
    : result (option clip) * list attempt :=
  match attempts with
  | [] => (Ok None, [])
  | a :: rest =>
      match attempt_once a with
      | Raise e => (Raise e, rest)
      | Ok (Some r) => (Ok r, rest)
      | Ok None => poll rest
      end
  end.

Definition _try_read_cf_html (RegisterClipboardFormat : result unit)
    (attempts : list attempt) : result (option clip) * list attempt :=
  match RegisterClipboardFormat with
  | Raise _ => (Ok None, attempts)
  | Ok _ => poll attempts
  end.

End Clipboard.

(** ** The behaviour the specification words, for comparison *)

Module Specified.
Import Py.

(** A header value is numeric when it is a non-empty run of decimal
    digits; its value is read in base ten. *)
Definition numeric (s : string) : bool :=
  nonempty s && forall_chars is_decimal s.

Fixpoint decimal_from (acc : Z) (s : string) : Z :=
  match s with
  | EmptyString => acc
  | String c s' => decimal_from (10 * acc + digit_value c) s'
  end.

Definition decimal_value : string → Z := decimal_from 0.

(** The offset a header gives: present and numeric. *)
Definition offset (meta : gmap string string) (key : string) : option Z :=
  v ← meta !! key; if numeric v then Some (decimal_value v) else None.

Definition valid_range (data : string) (start stop : Z) : bool :=
  (0 <=? start) && (start <=? stop) && (stop <=? len data).

(** The four tiers of the byte-oriented extraction, in their order of
    precedence: the bytes that are decoded and returned. *)
Definition fragment_tier (meta : gmap string string) (data : string)
    : option string :=
  start ← offset meta "StartFragment";
  stop ← offset meta "EndFragment";
  if valid_range data start stop then Some (slice data start stop) else None.

Definition anchor_tier (data : string) : option string :=
  Clipboard.search_fragment data.

Definition html_tier (meta : gmap string string) (data : string)
    : option string :=
  let start := default 0 (offset meta "StartHTML") in
  let stop := default (len data) (offset meta "EndHTML") in
  if valid_range data start stop then Some (slice data start stop) else None.

(** Every value of a header dictionary is text without characters above
    U+007F. *)
Definition ascii_values (meta : gmap string string) : Prop :=
  ∀ key v, meta !! key = Some v → forall_chars is_ascii v = true.

Definition selected_bytes (data : string) : string :=
  let meta := Clipboard.read_meta_bytes (splitlines_bytes data) ∅ in
  match fragment_tier meta data with
  | Some fragment => fragment
  | None =>
      match anchor_tier data with
      | Some fragment => fragment
      | None =>
          match html_tier meta data with
          | Some html => html
          | None => data
          end
      end
  end.

(** The names of the modifier members of [keyboard.Key]: alt, control,
    shift and the command (Windows) key, each with its left and right
    variant, and AltGr.  The enumeration belongs to the keyboard
    library; [_get_key_name] tests for ten of these thirteen. *)
Definition modifier_member_names : list string :=
  ["alt"; "alt_l"; "alt_r"; "alt_gr";
   "cmd"; "cmd_l"; "cmd_r";
   "ctrl"; "ctrl_l"; "ctrl_r";
   "shift"; "shift_l"; "shift_r"].

(** Those of them that [_get_key_name] does not test for. *)
Definition unlisted_modifier_names : list string :=
  ["alt_gr"; "cmd_l"; "cmd_r"].

(** The closed set of modifier tokens that the specification names;
    cmd and win are its two names for one key. *)
Definition modifier_tokens : list string :=
  ["ctrl"; "shift"; "alt"; "cmd"; "win"].

(** The persisted form as the specification words it: the keys are put
    in order first and bracketed afterwards. *)
Definition hotkey_string_sorted_then_bracketed (all : gset string) : string :=
  let modifiers :=
    filter (λ modifier, modifier ∈ all) HotkeyRecorder.modifier_order in
  let keys :=
    sorted (filter (λ key, key ∉ HotkeyRecorder.modifier_order) (elements all)) in
  join "+" ((HotkeyRecorder.bracket <$> modifiers)
            ++ ((λ key, if (1 <? len key) then HotkeyRecorder.bracket key else key)
                  <$> keys)).

End Specified.

(** ** Computable views used in the proofs *)

Module Table.
Import Py HotkeyChecker.

(** The first entry of the table whose keys are exactly [keys]. *)
Fixpoint first_match (keys : gset string)
    (items : list (list string * string)) : option (list string * string) :=
  match items with
  | [] => None
  | item :: rest =>
      if bool_decide (keys = list_to_set item.1) then Some item
      else first_match keys rest
  end.

(** An entry is one modifier other than shift followed by one key that
    is no modifier, and it is the first entry with its set of keys. *)
Definition entry_ok (item : list string * string) : bool :=
  match item.1 with
  | [modifier; key] =>
      bool_decide (modifier ∈ MODIFIER_KEYS)
      && bool_decide (modifier ≠ "shift")
      && bool_decide (key ∉ MODIFIER_KEYS)
      && bool_decide (size (list_to_set item.1 : gset string) = 2%nat)
      && bool_decide (list_to_set item.1 ∩ MODIFIER_KEYS ≠ (∅ : gset string))
      && bool_decide (list_to_set item.1 ∖ MODIFIER_KEYS ≠ (∅ : gset string))
      && bool_decide (list_to_set item.1 ∩ MODIFIER_KEYS ≠ ({["shift"]} : gset string))
      && bool_decide (first_match (list_to_set item.1) SYSTEM_HOTKEY_DESCRIPTIONS
                      = Some item)
  | _ => false
  end.

End Table.

(** * Properties *)

Import Py.

(** ** The string operations *)

Section case_mapping.

Lemma lower_char_idemp c : lower_char (lower_char c) = lower_char c.
Proof. by destruct c as [[] [] [] [] [] [] [] []]. Qed.

Lemma lower_idemp s : lower (lower s) = lower s.
Proof.
  unfold lower. induction s as [|c s IH]; simpl; [done|].
  by rewrite lower_char_idemp, IH.
Qed.

Lemma lower_char_decimal c : is_decimal c = true → lower_char c = c.
Proof. by destruct c as [[] [] [] [] [] [] [] []]. Qed.

End case_mapping.

(** The order of [sorted] is a total order. *)
Section string_order.

Lemma string_compare_refl s : String.compare s s = Eq.
Proof.
  induction s as [|c s IH]; simpl; [done|].
  unfold Ascii.compare. by rewrite N.compare_refl.
Qed.

Lemma string_compare_trans o s1 s2 s3 :
  o ≠ Eq →
  String.compare s1 s2 = o → String.compare s2 s3 = o →
  String.compare s1 s3 = o.
Proof.
  intros Ho. revert s2 s3.
  induction s1 as [|c1 s1 IH]; intros [|c2 s2] [|c3 s3]; simpl;
    try congruence.
  unfold Ascii.compare.
  destruct (N.compare_spec (N_of_ascii c1) (N_of_ascii c2)) as [E12|L12|G12];
    destruct (N.compare_spec (N_of_ascii c2) (N_of_ascii c3)) as [E23|L23|G23];
    intros H12 H23; subst; try congruence.
  - rewrite E12, E23, N.compare_refl. eauto.
  - rewrite E12. by apply N.compare_lt_iff in L23 as ->.
  - rewrite E12. by apply N.compare_gt_iff in G23 as ->.
  - rewrite <-E23. by apply N.compare_lt_iff in L12 as ->.
  - assert (N_of_ascii c1 < N_of_ascii c3)%N as L by lia.
    by apply N.compare_lt_iff in L as ->.
  - rewrite <-E23. by apply N.compare_gt_iff in G12 as ->.
  - assert (N_of_ascii c3 < N_of_ascii c1)%N as L by lia.
    by apply N.compare_gt_iff in L as ->.
Qed.

#[local] Instance str_le_total : Total str_le.
Proof. intros a b. apply String.leb_total. Qed.

#[local] Instance str_le_antisymm : AntiSymm (=) str_le.
Proof. intros a b. apply String.leb_antisym. Qed.

#[local] Instance str_le_trans : Transitive str_le.
Proof.
  intros a b c. unfold str_le, String.leb.
  destruct (String.compare a b) eqn:Hab; [|
    destruct (String.compare b c) eqn:Hbc; [| |done] |done].
  - apply String.compare_eq_iff in Hab as ->. done.
  - apply String.compare_eq_iff in Hbc as ->. by rewrite Hab.
  - by rewrite (string_compare_trans Lt a b c).
Qed.

Lemma sorted_Sorted l : Sorted str_le (sorted l).
Proof. apply (Sorted_merge_sort str_le). Qed.

Lemma sorted_Permutation l : sorted l ≡ₚ l.
Proof. apply (merge_sort_Permutation str_le). Qed.

(** [sorted] does not depend on the order in which it is given the
    elements. *)
Lemma sorted_unique l1 l2 : l1 ≡ₚ l2 → sorted l1 = sorted l2.
Proof.
  intros Hp. apply (Sorted_unique str_le); try apply sorted_Sorted.
  by rewrite !sorted_Permutation.
Qed.

Lemma Sorted_sorted l ks : Sorted str_le ks → ks ≡ₚ l → ks = sorted l.
Proof.
  intros Hs Hp. apply (Sorted_unique str_le); [done|apply sorted_Sorted|].
  by rewrite sorted_Permutation.
Qed.

End string_order.

(** A closed decidable proposition is settled by evaluating its
    decision procedure. *)
Ltac by_evaluation :=
  match goal with
  | |- ?P => apply (bool_decide_unpack P); vm_compute; exact I
  end.

(** ** The hotkey validator *)

Section validator.
Import HotkeyChecker.

Lemma scan_reserved_no_match keys hotkey_repr detailed items :
  (∀ combo desc_key, (combo, desc_key) ∈ items → keys ≠ list_to_set combo) →
  scan_reserved keys hotkey_repr detailed items = None.
Proof.
  induction items as [|[combo desc_key] items IH]; intros Hne; simpl; [done|].
  rewrite bool_decide_eq_false_2 by (apply (Hne combo desc_key); left).
  apply IH. intros c d Hin. apply (Hne c d). by right.
Qed.

Lemma validate_without_modifier keys hotkey_repr detailed :
  keys ∩ MODIFIER_KEYS = ∅ →
  validate_hotkey_keys keys hotkey_repr detailed
  = Some (t "hotkey.recorder.error.no_modifier").
Proof.
  intros H. unfold validate_hotkey_keys.
  by rewrite (bool_decide_eq_false_2 (_ ≠ _)) by (intros Hne; by apply Hne).
Qed.

Lemma validate_without_normal_key keys hotkey_repr detailed :
  keys ∩ MODIFIER_KEYS ≠ ∅ → keys ∖ MODIFIER_KEYS = ∅ →
  validate_hotkey_keys keys hotkey_repr detailed
  = Some (t "hotkey.recorder.error.no_normal_key").
Proof.
  intros Hm Hn. unfold validate_hotkey_keys.
  rewrite (bool_decide_eq_true_2 (_ ∩ _ ≠ _)) by done.
  by rewrite (bool_decide_eq_false_2 (_ ∖ _ ≠ _)) by (intros Hne; by apply Hne).
Qed.

Lemma validate_shift_only keys hotkey_repr detailed :
  keys ∖ MODIFIER_KEYS ≠ ∅ → keys ∩ MODIFIER_KEYS = {["shift"]} →
  validate_hotkey_keys keys hotkey_repr detailed
  = Some (t (if detailed then "hotkey.recorder.error.shift_only_long"
             else "hotkey.recorder.error.shift_only_short")).
Proof.
  intros Hn Hs. unfold validate_hotkey_keys.
  rewrite (bool_decide_eq_true_2 (_ ∩ _ ≠ _)).
  - rewrite (bool_decide_eq_true_2 (_ ∖ _ ≠ _)) by done.
    by rewrite (bool_decide_eq_true_2 (_ = _)) by done.
  - rewrite Hs. by_evaluation.
Qed.

Lemma scan_reserved_first_match keys hotkey_repr detailed items :
  scan_reserved keys hotkey_repr detailed items
  = (λ item, reserved_error hotkey_repr detailed item.1 item.2)
      <$> Table.first_match keys items.
Proof.
  induction items as [|[combo desc_key] items IH]; simpl; [done|].
  by case_bool_decide.
Qed.

Lemma reserved_entries_ok :
  forallb Table.entry_ok SYSTEM_HOTKEY_DESCRIPTIONS = true.
Proof. vm_compute. reflexivity. Qed.

Lemma reserved_entry_ok combo desc_key :
  (combo, desc_key) ∈ SYSTEM_HOTKEY_DESCRIPTIONS →
  ∃ modifier key,
    combo = [modifier; key]
    ∧ modifier ∈ MODIFIER_KEYS ∧ modifier ≠ "shift" ∧ (key ∉ MODIFIER_KEYS)
    ∧ size (list_to_set combo : gset string) = 2%nat
    ∧ list_to_set combo ∩ MODIFIER_KEYS ≠ (∅ : gset string)
    ∧ list_to_set combo ∖ MODIFIER_KEYS ≠ (∅ : gset string)
    ∧ list_to_set combo ∩ MODIFIER_KEYS ≠ ({["shift"]} : gset string)
    ∧ Table.first_match (list_to_set combo) SYSTEM_HOTKEY_DESCRIPTIONS
      = Some (combo, desc_key).
Proof.
  intros Hin%list_elem_of_In.
  pose proof (proj1 (forallb_forall _ _) reserved_entries_ok _ Hin) as Hok.
  unfold Table.entry_ok in Hok. simpl in Hok.
  destruct combo as [|modifier [|key [|]]]; try done.
  repeat (apply andb_prop in Hok as [Hok ?%bool_decide_eq_true_1]).
  apply bool_decide_eq_true_1 in Hok. by eexists _, _.
Qed.

Lemma validate_reserved combo desc_key hotkey_repr detailed :
  (combo, desc_key) ∈ SYSTEM_HOTKEY_DESCRIPTIONS →
  validate_hotkey_keys (list_to_set combo) hotkey_repr detailed
  = Some (reserved_error hotkey_repr detailed combo desc_key).
Proof.
  intros Hin.
  destruct (reserved_entry_ok _ _ Hin)
    as (modifier & key & -> & _ & _ & _ & _ & Hm & Hn & Hs & Hf).
  unfold validate_hotkey_keys.
  rewrite (bool_decide_eq_true_2 (_ ∩ _ ≠ _)) by done.
  rewrite (bool_decide_eq_true_2 (_ ∖ _ ≠ _)) by done.
  rewrite (bool_decide_eq_false_2 (_ = _)) by done.
  by rewrite scan_reserved_first_match, Hf.
Qed.

Lemma validate_passes keys hotkey_repr detailed :
  keys ∩ MODIFIER_KEYS ≠ ∅ → keys ∖ MODIFIER_KEYS ≠ ∅ →
  keys ∩ MODIFIER_KEYS ≠ {["shift"]} →
  (∀ combo desc_key,
     (combo, desc_key) ∈ SYSTEM_HOTKEY_DESCRIPTIONS → keys ≠ list_to_set combo) →
  validate_hotkey_keys keys hotkey_repr detailed = None.
Proof.
  intros Hm Hn Hs Hr. unfold validate_hotkey_keys.
  rewrite (bool_decide_eq_true_2 (_ ∩ _ ≠ _)) by done.
  rewrite (bool_decide_eq_true_2 (_ ∖ _ ≠ _)) by done.
  rewrite (bool_decide_eq_false_2 (_ = _)) by done.
  by apply scan_reserved_no_match.
Qed.

End validator.

(** C2, as amended.  The validator returns the error of the first rule
    that fails, the rules being taken in this order: a modifier is
    required; a key that is no modifier is required; the modifiers must
    not be shift alone; the set must not be an entry of the table of
    reserved combinations, whose error names the entry; otherwise the set
    is accepted.  The set of shift alone fails the second rule, shift
    with a key fails the third, ctrl alone the second, a alone the first,
    and ctrl with c the fourth, naming ctrl+c. *)
Theorem validate_hotkey_keys_rule_order
    (keys : gset string) (hotkey_repr : string) (detailed : bool) :
  let validate := HotkeyChecker.validate_hotkey_keys in
  let modifiers := keys ∩ HotkeyChecker.MODIFIER_KEYS in
  let normal_keys := keys ∖ HotkeyChecker.MODIFIER_KEYS in
  (modifiers = ∅ →
   validate keys hotkey_repr detailed
   = Some (t "hotkey.recorder.error.no_modifier"))
  ∧ (modifiers ≠ ∅ → normal_keys = ∅ →
     validate keys hotkey_repr detailed
     = Some (t "hotkey.recorder.error.no_normal_key"))
  ∧ (modifiers ≠ ∅ → normal_keys ≠ ∅ → modifiers = {["shift"]} →
     validate keys hotkey_repr detailed
     = Some (t (if detailed then "hotkey.recorder.error.shift_only_long"
                else "hotkey.recorder.error.shift_only_short")))
  ∧ (∀ combo desc_key,
       (combo, desc_key) ∈ HotkeyChecker.SYSTEM_HOTKEY_DESCRIPTIONS →
       keys = list_to_set combo →
       validate keys hotkey_repr detailed
       = Some (HotkeyChecker.reserved_error hotkey_repr detailed combo desc_key))
  ∧ (modifiers ≠ ∅ → normal_keys ≠ ∅ → modifiers ≠ {["shift"]} →
     (∀ combo desc_key,
        (combo, desc_key) ∈ HotkeyChecker.SYSTEM_HOTKEY_DESCRIPTIONS →
        keys ≠ list_to_set combo) →
     validate keys hotkey_repr detailed = None)
  ∧ validate {["shift"]} hotkey_repr detailed
    = Some (t "hotkey.recorder.error.no_normal_key")
  ∧ validate {["shift"; "a"]} hotkey_repr detailed
    = Some (t (if detailed then "hotkey.recorder.error.shift_only_long"
               else "hotkey.recorder.error.shift_only_short"))
  ∧ validate {["ctrl"]} hotkey_repr detailed
    = Some (t "hotkey.recorder.error.no_normal_key")
  ∧ validate {["a"]} hotkey_repr detailed
    = Some (t "hotkey.recorder.error.no_modifier")
  ∧ validate {["ctrl"; "c"]} hotkey_repr true
    = Some (t_combo "hotkey.recorder.error.system_reserved_long"
                    (t "hotkey.recorder.system.ctrl_c"))
  ∧ validate {["ctrl"; "c"]} "" false
    = Some (t_combo "hotkey.recorder.error.system_reserved_short"
                    (Plain "CTRL+C")).
Proof.
  cbv zeta. split_and!.
  - apply validate_without_modifier.
  - apply validate_without_normal_key.
  - intros _. apply validate_shift_only.
  - intros combo desc_key Hin ->. by apply validate_reserved.
  - apply validate_passes.
  - apply validate_without_normal_key; by_evaluation.
  - apply validate_shift_only; by_evaluation.
  - apply validate_without_normal_key; by_evaluation.
  - apply validate_without_modifier; by_evaluation.
  - by vm_compute.
  - by vm_compute.
Qed.

Lemma validate_hotkey_keys_rule_order_witness :
  HotkeyChecker.validate_hotkey_keys {["a"]} "" true
  = Some (t "hotkey.recorder.error.no_modifier")
  ∧ HotkeyChecker.validate_hotkey_keys {["ctrl"]} "" true
    = Some (t "hotkey.recorder.error.no_normal_key")
  ∧ HotkeyChecker.validate_hotkey_keys {["shift"; "a"]} "" true
    = Some (t "hotkey.recorder.error.shift_only_long")
  ∧ HotkeyChecker.validate_hotkey_keys {["alt"; "f4"]} "" true
    = Some (HotkeyChecker.reserved_error "" true ["alt"; "f4"]
              "hotkey.recorder.system.alt_f4")
  ∧ HotkeyChecker.validate_hotkey_keys {["ctrl"; "alt"; "a"]} "" true = None.
Proof.
  destruct (validate_hotkey_keys_rule_order {["a"]} "" true) as (Ha & _).
  destruct (validate_hotkey_keys_rule_order {["ctrl"]} "" true)
    as (_ & Hb & _).
  destruct (validate_hotkey_keys_rule_order {["shift"; "a"]} "" true)
    as (_ & _ & Hc & _).
  destruct (validate_hotkey_keys_rule_order {["alt"; "f4"]} "" true)
    as (_ & _ & _ & Hd & _).
  destruct (validate_hotkey_keys_rule_order {["ctrl"; "alt"; "a"]} "" true)
    as (_ & _ & _ & _ & He & _).
  split_and!.
  - apply Ha. by vm_compute.
  - apply Hb; by_evaluation.
  - apply Hc; by_evaluation.
  - apply Hd; by_evaluation.
  - apply He; try by_evaluation.
    assert (Forall (λ item, ({["ctrl"; "alt"; "a"]} : gset string)
                            ≠ list_to_set item.1)
              HotkeyChecker.SYSTEM_HOTKEY_DESCRIPTIONS) as Hall.
    { unfold HotkeyChecker.SYSTEM_HOTKEY_DESCRIPTIONS.
      repeat (constructor; [by_evaluation|]). constructor. }
    intros combo desc_key Hin.
    exact (proj1 (Forall_forall _ _) Hall (combo, desc_key) Hin).
Defined.

(** The claim of C2 on shift alone does not hold: the set fails the rule
    on keys that are no modifiers before the rule on shift is reached. *)
Lemma validate_shift_alone_is_not_shift_only :
  HotkeyChecker.validate_hotkey_keys {["shift"]} "" true
  = Some (t "hotkey.recorder.error.no_normal_key")
  ∧ HotkeyChecker.validate_hotkey_keys {["shift"]} "" true
    ≠ Some (t "hotkey.recorder.error.shift_only_long")
  ∧ HotkeyChecker.validate_hotkey_keys {["shift"]} "" false
    ≠ Some (t "hotkey.recorder.error.shift_only_short").
Proof. split_and!; by vm_compute. Qed.

(** C10.  A set of keys that strictly contains an entry of the table of
    reserved combinations is not rejected as reserved; the other three
    rules hold of it as well, and it is accepted. *)
Theorem reserved_needs_exact_match
    (keys : gset string) (hotkey_repr : string) (detailed : bool)
    (combo : list string) (desc_key : string) :
  (combo, desc_key) ∈ HotkeyChecker.SYSTEM_HOTKEY_DESCRIPTIONS →
  list_to_set combo ⊂ keys →
  HotkeyChecker.scan_reserved keys hotkey_repr detailed
    HotkeyChecker.SYSTEM_HOTKEY_DESCRIPTIONS = None
  ∧ (keys ∩ HotkeyChecker.MODIFIER_KEYS ≠ ∅
     ∧ keys ∖ HotkeyChecker.MODIFIER_KEYS ≠ ∅
     ∧ keys ∩ HotkeyChecker.MODIFIER_KEYS ≠ {["shift"]})
  ∧ HotkeyChecker.validate_hotkey_keys keys hotkey_repr detailed = None.
Proof.
  intros Hin Hsub.
  assert (∀ c d, (c, d) ∈ HotkeyChecker.SYSTEM_HOTKEY_DESCRIPTIONS →
                 keys ≠ list_to_set c) as Hne.
  { intros c d Hc ->.
    apply subset_size in Hsub.
    destruct (reserved_entry_ok _ _ Hin) as (? & ? & _ & _ & _ & _ & H1 & _).
    destruct (reserved_entry_ok _ _ Hc) as (? & ? & _ & _ & _ & _ & H2 & _).
    lia. }
  destruct (reserved_entry_ok _ _ Hin)
    as (modifier & key & -> & Hm & Hns & Hk & _).
  assert (modifier ∈ keys ∧ key ∈ keys) as [Hmk Hkk].
  { destruct Hsub as [Hsub _].
    split; apply Hsub, elem_of_list_to_set; repeat constructor. }
  assert (modifier ∈ keys ∩ HotkeyChecker.MODIFIER_KEYS) as Hmod
    by by apply elem_of_intersection.
  assert (key ∈ keys ∖ HotkeyChecker.MODIFIER_KEYS) as Hkey
    by by apply elem_of_difference.
  assert (keys ∩ HotkeyChecker.MODIFIER_KEYS ≠ ∅).
  { intros E. rewrite E in Hmod. by apply not_elem_of_empty in Hmod. }
  assert (keys ∖ HotkeyChecker.MODIFIER_KEYS ≠ ∅).
  { intros E. rewrite E in Hkey. by apply not_elem_of_empty in Hkey. }
  assert (keys ∩ HotkeyChecker.MODIFIER_KEYS ≠ {["shift"]}).
  { intros E. rewrite E in Hmod. by apply elem_of_singleton in Hmod. }
  split_and!; try done.
  - by apply scan_reserved_no_match.
  - by apply validate_passes.
Qed.

Lemma reserved_needs_exact_match_witness :
  HotkeyChecker.validate_hotkey_keys {["ctrl"; "shift"; "c"]} "" true = None.
Proof.
  apply (reserved_needs_exact_match {["ctrl"; "shift"; "c"]} "" true
           ["ctrl"; "c"] "hotkey.recorder.system.ctrl_c").
  - by_evaluation.
  - by_evaluation.
Defined.

(** ** Key names *)

Section key_names.
Import HotkeyRecorder.

Lemma key_name_of_letter vk :
  65 ≤ vk ≤ 90 →
  lower (lower (String (chr (Z.to_N vk)) EmptyString))
  = lower (String (chr (Z.to_N vk)) EmptyString).
Proof. intros _. apply lower_idemp. Qed.

Lemma key_name_of_digit vk :
  48 ≤ vk ≤ 57 →
  lower (String (chr (Z.to_N vk)) EmptyString)
  = String (chr (Z.to_N vk)) EmptyString.
Proof.
  intros H.
  assert (vk ∈ [48; 49; 50; 51; 52; 53; 54; 55; 56; 57]) as Hin.
  { rewrite !elem_of_cons. lia. }
  rewrite !elem_of_cons, elem_of_nil in Hin. destruct_or!; by subst.
Qed.

Lemma key_name_of_numpad vk :
  96 ≤ vk ≤ 105 → lower ("num" +:+ pretty (vk - 96)) = "num" +:+ pretty (vk - 96).
Proof.
  intros H.
  assert (vk ∈ [96; 97; 98; 99; 100; 101; 102; 103; 104; 105]) as Hin.
  { rewrite !elem_of_cons. lia. }
  rewrite !elem_of_cons, elem_of_nil in Hin. destruct_or!; by subst.
Qed.

Lemma get_key_name_lower k token :
  _get_key_name k = Some token → lower token = token.
Proof.
  unfold _get_key_name.
  destruct k as [name|vk char|]; simpl; [| |done].
  - repeat case_bool_decide; intros; simplify_eq; try done. apply lower_idemp.
  - destruct vk as [vk|]; [|done].
    destruct (_ && _) eqn:Hletter.
    { intros; simplify_eq. apply key_name_of_letter. lia. }
    destruct (_ && _) eqn:Hdigit in |- *.
    { intros; simplify_eq. apply key_name_of_digit. lia. }
    destruct (_ && _) eqn:Hnum in |- *.
    { intros; simplify_eq. apply key_name_of_numpad. lia. }
    destruct char as [[|c rest]|]; try done.
    destruct (nonempty rest); [done|].
    destruct (32 <=? code c)%N; [|done].
    intros; simplify_eq. apply lower_idemp.
Qed.

(** A [KeyCode] never gets the token of a modifier: its token is one
    character, or num and a digit. *)
Lemma key_code_no_modifier vk char token :
  _get_key_name (KeyCode vk char) = Some token →
  token ∉ HotkeyChecker.MODIFIER_KEYS.
Proof.
  assert (∀ c, String c EmptyString ∉ HotkeyChecker.MODIFIER_KEYS) as Hone.
  { intros c. unfold HotkeyChecker.MODIFIER_KEYS.
    rewrite !elem_of_union, !elem_of_singleton. intros H.
    destruct_or!; discriminate. }
  unfold _get_key_name. simpl.
  destruct vk as [vk|]; [|done].
  destruct (_ && _) eqn:Hletter.
  { intros; simplify_eq. apply Hone. }
  destruct (_ && _) eqn:Hdigit in |- *.
  { intros; simplify_eq. apply Hone. }
  destruct (_ && _) eqn:Hnum in |- *.
  { intros; simplify_eq.
    assert (vk ∈ [96; 97; 98; 99; 100; 101; 102; 103; 104; 105]) as Hin.
    { rewrite !elem_of_cons. lia. }
    rewrite !elem_of_cons, elem_of_nil in Hin.
    destruct_or!; subst; by_evaluation. }
  destruct char as [[|c rest]|]; try done.
  destruct rest; [|done]. simpl.
  destruct (32 <=? code c)%N; [|done].
  intros; simplify_eq. apply Hone.
Qed.

End key_names.

(** C9.  Whatever token [_get_key_name] returns is in lower case:
    putting it in lower case again leaves it as it is.  Of the modifier
    members of [keyboard.Key], ctrl, shift and alt with their left and
    right variants, and cmd, are mapped to one of the tokens ctrl, shift,
    alt and cmd, the variants to the token of the key itself, and the
    validator counts these tokens as modifiers; cmd_l, cmd_r and alt_gr
    keep their own names, which are outside the closed set and are no
    modifiers to the validator.  A [KeyCode] never gets a modifier
    token. *)
Theorem get_key_name_normalized :
  (∀ k token, HotkeyRecorder._get_key_name k = Some token → lower token = token)
  ∧ (∀ name, name ∈ Specified.modifier_member_names →
       ∃ token,
         HotkeyRecorder._get_key_name (HotkeyRecorder.Key name) = Some token
         ∧ (name ∉ Specified.unlisted_modifier_names →
            token ∈ ["ctrl"; "shift"; "alt"; "cmd"]
            ∧ name ∈ [token; token +:+ "_l"; token +:+ "_r"]
            ∧ token ∈ HotkeyChecker.MODIFIER_KEYS)
         ∧ (name ∈ Specified.unlisted_modifier_names →
            token = name
            ∧ (token ∉ Specified.modifier_tokens)
            ∧ (token ∉ HotkeyChecker.MODIFIER_KEYS)))
  ∧ (∀ vk char token,
       HotkeyRecorder._get_key_name (HotkeyRecorder.KeyCode vk char) = Some token →
       token ∉ HotkeyChecker.MODIFIER_KEYS).
Proof.
  split_and!; [apply get_key_name_lower| |apply key_code_no_modifier].
  intros name Hname.
  unfold Specified.modifier_member_names in Hname.
  rewrite !elem_of_cons, elem_of_nil in Hname.
  destruct_or!; subst; try done;
    (eexists; split; [reflexivity|]; split;
     [intros Hlisted|intros Hunlisted]);
    first [ split_and!; by_evaluation
          | exfalso; revert Hlisted; by_evaluation
          | exfalso; revert Hunlisted; by_evaluation ].
Qed.

Lemma get_key_name_normalized_witness :
  lower "ctrl" = "ctrl"
  ∧ (∃ token,
       HotkeyRecorder._get_key_name (HotkeyRecorder.Key "shift_r") = Some token
       ∧ token ∈ ["ctrl"; "shift"; "alt"; "cmd"]
       ∧ token ∈ HotkeyChecker.MODIFIER_KEYS)
  ∧ "num7" ∉ HotkeyChecker.MODIFIER_KEYS.
Proof.
  destruct get_key_name_normalized as (Hlower & Hmodifier & Hcode). split_and!.
  - apply (Hlower (HotkeyRecorder.Key "ctrl_l")). reflexivity.
  - destruct (Hmodifier "shift_r") as (token & Htoken & Hlisted & _).
    + by_evaluation.
    + exists token. split; [exact Htoken|].
      destruct Hlisted as (Hin & _ & Hmod); [by_evaluation|]. by split.
  - apply (Hcode (Some 103) None). reflexivity.
Defined.

(** The claim of C9 on the modifier keys does not hold of all of them:
    the right command key and AltGr keep their names, which are not in
    the closed set, and the validator takes them for normal keys. *)
Lemma unlisted_modifier_keeps_its_name :
  "cmd_r" ∈ Specified.modifier_member_names
  ∧ HotkeyRecorder._get_key_name (HotkeyRecorder.Key "cmd_r") = Some "cmd_r"
  ∧ ("cmd_r" ∉ Specified.modifier_tokens)
  ∧ ("cmd_r" ∉ HotkeyChecker.MODIFIER_KEYS)
  ∧ "alt_gr" ∈ Specified.modifier_member_names
  ∧ HotkeyRecorder._get_key_name (HotkeyRecorder.Key "alt_gr") = Some "alt_gr"
  ∧ ("alt_gr" ∉ Specified.modifier_tokens)
  ∧ ("alt_gr" ∉ HotkeyChecker.MODIFIER_KEYS)
  ∧ HotkeyChecker.validate_hotkey_keys {["cmd_r"; "a"]} "" true
    = Some (t "hotkey.recorder.error.no_modifier").
Proof. split_and!; try by_evaluation; by vm_compute. Qed.

(** ** The display form and the persisted form *)

Section forms.
Import HotkeyRecorder.

(** Neither form depends on the order in which the set is iterated. *)
Lemma display_in_order_Permutation it1 it2 all :
  it1 ≡ₚ it2 → display_in_order it1 all = display_in_order it2 all.
Proof.
  intros Hp. unfold display_in_order.
  case_bool_decide; [done|].
  do 3 f_equal. apply sorted_unique. by rewrite Hp.
Qed.

Lemma hotkey_string_in_order_Permutation it1 it2 all :
  it1 ≡ₚ it2 → hotkey_string_in_order it1 all = hotkey_string_in_order it2 all.
Proof.
  intros Hp. unfold hotkey_string_in_order.
  do 2 f_equal. apply sorted_unique. by rewrite Hp.
Qed.

Lemma display_of_empty it : it ≡ₚ elements (∅ : gset string) →
  join " + " (title <$> (filter (λ modifier, modifier ∈ (∅ : gset string))
                                modifier_order
                         ++ sorted (filter (λ key, key ∉ modifier_order) it)))
  = EmptyString.
Proof.
  rewrite elements_empty. intros ->%Permutation_nil_r. reflexivity.
Qed.

End forms.

(** C8, as amended.  Both forms put the modifiers first, in the order
    ctrl, shift, alt, cmd.  The display form follows them with the other
    keys in lexicographic order, every token in title case, joined by
    space, plus, space.  The persisted form brackets the modifiers and
    follows them with the other keys, bracketed when longer than one
    character, in the lexicographic order of what is written, brackets
    included; the parts are joined by a plus.  For ctrl, alt and a the
    forms are Ctrl + Alt + A and <ctrl>+<alt>+a. *)
Theorem display_and_persisted_forms (all : gset string) (iteration : list string) :
  iteration ≡ₚ elements all →
  let modifiers :=
    filter (λ modifier, modifier ∈ all) HotkeyRecorder.modifier_order in
  let others :=
    filter (λ key, key ∉ HotkeyRecorder.modifier_order) (elements all) in
  let written key :=
    if (1 <? len key) then HotkeyRecorder.bracket key else key in
  (∃ keys, Sorted str_le keys ∧ keys ≡ₚ others
     ∧ HotkeyRecorder.display_in_order iteration all
       = join " + " (title <$> (modifiers ++ keys)))
  ∧ (∃ keys, Sorted str_le keys ∧ keys ≡ₚ written <$> others
       ∧ HotkeyRecorder.hotkey_string_in_order iteration all
         = join "+" ((HotkeyRecorder.bracket <$> modifiers) ++ keys))
  ∧ (all = {["ctrl"; "alt"; "a"]} →
     HotkeyRecorder.display_in_order iteration all = "Ctrl + Alt + A"
     ∧ HotkeyRecorder.hotkey_string_in_order iteration all = "<ctrl>+<alt>+a").
Proof.
  intros Hp. cbv zeta. split_and!.
  - exists (sorted (filter (λ key, key ∉ HotkeyRecorder.modifier_order)
                           (elements all))).
    split; [apply sorted_Sorted|]. split; [apply sorted_Permutation|].
    rewrite (display_in_order_Permutation _ _ _ Hp).
    unfold HotkeyRecorder.display_in_order.
    case_bool_decide as Hall; [|done].
    subst all. symmetry. by apply display_of_empty.
  - exists (sorted ((λ key, if (1 <? len key) then HotkeyRecorder.bracket key
                            else key)
                      <$> filter (λ key, key ∉ HotkeyRecorder.modifier_order)
                                 (elements all))).
    split; [apply sorted_Sorted|]. split; [apply sorted_Permutation|].
    by rewrite (hotkey_string_in_order_Permutation _ _ _ Hp).
  - intros ->.
    rewrite (display_in_order_Permutation _ _ _ Hp).
    rewrite (hotkey_string_in_order_Permutation _ _ _ Hp).
    split; by vm_compute.
Qed.

Lemma display_and_persisted_forms_witness :
  HotkeyRecorder.display_in_order ["a"; "ctrl"; "alt"] {["ctrl"; "alt"; "a"]}
  = "Ctrl + Alt + A"
  ∧ HotkeyRecorder.hotkey_string_in_order ["a"; "ctrl"; "alt"]
      {["ctrl"; "alt"; "a"]}
    = "<ctrl>+<alt>+a".
Proof.
  apply (display_and_persisted_forms {["ctrl"; "alt"; "a"]} ["a"; "ctrl"; "alt"]).
  - apply permutations_Permutation. by_evaluation.
  - reflexivity.
Defined.

(** The persisted form is not the keys sorted and then bracketed: with
    ctrl, a and f1 pressed, the bracketed f1 is written before a. *)
Lemma persisted_form_sorts_what_is_written :
  let self :=
    HotkeyRecorder.deliver
      [HotkeyRecorder.press (HotkeyRecorder.Key "ctrl_l");
       HotkeyRecorder.press (HotkeyRecorder.KeyCode (Some 65) (Some "a"));
       HotkeyRecorder.press (HotkeyRecorder.Key "f1")]
      (HotkeyRecorder.start_recording true true HotkeyRecorder.__init__) in
  HotkeyRecorder.all_pressed_keys self = {["ctrl"; "a"; "f1"]}
  ∧ HotkeyRecorder._generate_hotkey_string self = "<ctrl>+<f1>+a"
  ∧ Specified.hotkey_string_sorted_then_bracketed
      (HotkeyRecorder.all_pressed_keys self) = "<ctrl>+a+<f1>"
  ∧ HotkeyRecorder._generate_hotkey_string self
    ≠ Specified.hotkey_string_sorted_then_bracketed
        (HotkeyRecorder.all_pressed_keys self).
Proof. cbv zeta. split_and!; by vm_compute. Qed.

(** ** Recording sessions *)

Section sessions.
Import HotkeyRecorder.

Lemma handle_event_name self e1 e2 :
  event_name e1 = event_name e2 → handle self e1 = handle self e2.
Proof.
  destruct e1 as [k1|k1], e2 as [k2|k2]; simpl; intros [= Hn]; try done.
  - unfold _on_key_press. by rewrite Hn.
  - unfold _on_key_release. by rewrite Hn.
Qed.

Lemma deliver_event_names es1 es2 self :
  event_name <$> es1 = event_name <$> es2 → deliver es1 self = deliver es2 self.
Proof.
  unfold deliver. revert es2 self.
  induction es1 as [|e1 es1 IH]; intros [|e2 es2] self; simpl; try done.
  intros [= Hn Hrest]. rewrite (handle_event_name self e1 e2 Hn). by apply IH.
Qed.

Lemma event_names_of_chord presses releases :
  event_name <$> ((press <$> presses) ++ (release <$> releases))
  = ((λ n, (true, n)) <$> (_get_key_name <$> presses))
    ++ ((λ n, (false, n)) <$> (_get_key_name <$> releases)).
Proof. rewrite fmap_app, <-!list_fmap_compose. done. Qed.

(** A handler does nothing once the recording has stopped. *)
Lemma handle_stopped self ev : recording self = false → handle self ev = self.
Proof.
  intros Hr. destruct ev; simpl.
  - unfold _on_key_press. by rewrite Hr.
  - unfold _on_key_release. by rewrite Hr.
Qed.

Lemma deliver_stopped events self :
  recording self = false → deliver events self = self.
Proof.
  unfold deliver. induction events as [|ev events IH]; simpl; [done|].
  intros Hr. rewrite (handle_stopped _ _ Hr). by apply IH.
Qed.

Lemma pressed_set_not_empty key_name (keys : gset string) :
  {[key_name]} ∪ keys ≠ ∅.
Proof.
  intros E. apply (not_elem_of_empty (C:=gset string) key_name).
  rewrite <-E. apply elem_of_union_l. by apply elem_of_singleton.
Qed.

Lemma on_key_press_calls self k key_name :
  recording self = true → on_update_callback self = true →
  _get_key_name k = Some key_name → nonempty key_name = true →
  _on_key_press k self
  = invoke (on_update (_format_keys_for_display (with_press key_name self)))
           (with_press key_name self).
Proof.
  intros Hr Hu Hk Hn. unfold _on_key_press, _notify_update.
  rewrite Hr, Hk, Hn. simpl. rewrite Hu. simpl.
  by rewrite bool_decide_eq_true_2 by apply pressed_set_not_empty.
Qed.

Lemma finish_recording_stops self :
  recording (_finish_recording self) = false.
Proof.
  unfold _finish_recording.
  case_bool_decide; simpl; by destruct (on_finish_callback self).
Qed.

Lemma finish_recording_calls self :
  on_finish_callback self = true →
  ∃ hotkey error,
    calls (_finish_recording self) = calls self ++ [on_finish hotkey error].
Proof.
  intros Hf. unfold _finish_recording.
  case_bool_decide; simpl; rewrite Hf; simpl; eauto.
Qed.

Lemma finish_recording_calls_cases self :
  calls (_finish_recording self) = calls self
  ∨ ∃ hotkey error,
      calls (_finish_recording self) = calls self ++ [on_finish hotkey error].
Proof.
  unfold _finish_recording.
  case_bool_decide; simpl; destruct (on_finish_callback self); simpl; eauto.
Qed.

Lemma on_key_release_cases self k key_name :
  recording self = true →
  _get_key_name k = Some key_name → nonempty key_name = true →
  let after := with_release key_name self in
  let complete :=
    all_pressed_keys self ≠ ∅
    ∧ all_pressed_keys self = {[key_name]} ∪ released_keys self in
  (complete → _on_key_release k self = (false, _finish_recording after))
  ∧ (¬ complete → _on_key_release k self = (true, after)).
Proof.
  intros Hr Hk Hn. cbv zeta. unfold _on_key_release.
  rewrite Hr, Hk, Hn. simpl. split.
  - intros [Hne Heq].
    rewrite bool_decide_eq_true_2 by done.
    by rewrite bool_decide_eq_true_2 by done.
  - intros Hnot.
    case_bool_decide as H1; [|done].
    case_bool_decide as H2; [|done]. by destruct Hnot.
Qed.

Lemma on_key_release_calls self k :
  calls (_on_key_release k self).2 = calls self
  ∨ ∃ hotkey error,
      calls (_on_key_release k self).2 = calls self ++ [on_finish hotkey error].
Proof.
  unfold _on_key_release.
  destruct (negb _); simpl; [by left|].
  destruct (_get_key_name k) as [key_name|]; simpl; [|by left].
  destruct (nonempty key_name); simpl; [|by left].
  destruct (_ && _); simpl; [|by left].
  apply (finish_recording_calls_cases (with_release key_name self)).
Qed.

(** What one event adds to the calls. *)
Lemma handle_trace self ev :
  handle self ev = self
  ∨ (recording self = true ∧ recording (handle self ev) = true
     ∧ (calls (handle self ev) = calls self
        ∨ ∃ display, calls (handle self ev) = calls self ++ [on_update display]))
  ∨ (recording self = true ∧ recording (handle self ev) = false
     ∧ (calls (handle self ev) = calls self
        ∨ ∃ hotkey error,
            calls (handle self ev) = calls self ++ [on_finish hotkey error])).
Proof.
  destruct (recording self) eqn:Hr; [|left; by apply handle_stopped].
  destruct ev as [k|k]; simpl.
  - unfold _on_key_press. rewrite Hr. simpl.
    destruct (_get_key_name k) as [key_name|]; [|by left].
    destruct (nonempty key_name); [|by left].
    right; left. split; [done|]. unfold _notify_update.
    destruct (_ && _); simpl; eauto.
  - unfold _on_key_release. rewrite Hr. simpl.
    destruct (_get_key_name k) as [key_name|]; [|by left].
    destruct (nonempty key_name); [|by left].
    destruct (_ && _); simpl.
    + right; right. split; [done|]. split; [apply finish_recording_stops|].
      apply (finish_recording_calls_cases (with_release key_name self)).
    + right; left. eauto.
Qed.

(** The calls of a run of events: calls of [on_update], then at most
    one call of [on_finish], after which the recording has stopped. *)
Lemma deliver_trace events self :
  ∃ updates finish,
    calls (deliver events self) = calls self ++ updates ++ finish
    ∧ forallb is_on_update updates = true
    ∧ (finish = []
       ∨ ∃ hotkey error,
           finish = [on_finish hotkey error]
           ∧ recording (deliver events self) = false).
Proof.
  revert self. induction events as [|ev events IH]; intros self.
  { exists [], []. simpl. rewrite app_nil_r. eauto. }
  change (deliver (ev :: events) self) with (deliver events (handle self ev)).
  destruct (handle_trace self ev)
    as [->|[(_ & _ & Hc)|(_ & Hstop & Hc)]]; [apply IH| |].
  - destruct (IH (handle self ev)) as (updates & finish & Hcalls & Hu & Hf).
    destruct Hc as [Hc|[display Hc]]; rewrite Hc in Hcalls.
    + by exists updates, finish.
    + exists (on_update display :: updates), finish.
      rewrite Hcalls, <-!app_assoc. simpl. by rewrite Hu.
  - rewrite (deliver_stopped _ _ Hstop).
    destruct Hc as [Hc|(hotkey & error & Hc)]; rewrite Hc.
    + exists [], []. rewrite app_nil_r. eauto.
    + exists [], [on_finish hotkey error]. simpl. split_and!; eauto.
Qed.

Lemma chord_run on_update pressed released :
  pressed ∈ permutations chord → released ∈ permutations chord →
  let final :=
    deliver ((press <$> (key_named <$> pressed))
             ++ (release <$> (key_named <$> released)))
            (start_recording on_update true __init__) in
  _get_key_name <$> (key_named <$> pressed) = pressed
  ∧ _get_key_name <$> (key_named <$> released) = released
  ∧ recording final = false
  ∧ filter (λ c, is_on_finish c) (calls final)
    = [on_finish (Some "<ctrl>+<alt>+a") None]
  ∧ last (calls final) = Some (on_finish (Some "<ctrl>+<alt>+a") None).
Proof.
  set (ps := permutations chord). vm_compute in ps. subst ps.
  rewrite !elem_of_cons, !elem_of_nil. intros Hp Hr.
  destruct on_update; destruct_or!; subst; by vm_compute.
Qed.

Lemma partial_release_run on_update pressed released :
  pressed ∈ permutations chord →
  released ∈ permutations [Some "ctrl"; Some "alt"] →
  let final :=
    deliver ((press <$> (key_named <$> pressed))
             ++ (release <$> (key_named <$> released)))
            (start_recording on_update true __init__) in
  _get_key_name <$> (key_named <$> pressed) = pressed
  ∧ _get_key_name <$> (key_named <$> released) = released
  ∧ recording final = true
  ∧ filter (λ c, is_on_finish c) (calls final) = [].
Proof.
  set (ps := permutations chord). vm_compute in ps. subst ps.
  set (rs := permutations _). vm_compute in rs. subst rs.
  rewrite !elem_of_cons, !elem_of_nil. intros Hp Hr.
  destruct on_update; destruct_or!; subst; by vm_compute.
Qed.

End sessions.

(** C3.  When a key is released during a recording, the session
    finishes exactly when the set of keys ever pressed is not empty and
    equals the set of keys released, the key just released included.
    Pressing ctrl, alt and a in any order and then releasing the three in
    any order calls [on_finish] once, with the combination
    <ctrl>+<alt>+a and no error; releasing only ctrl and alt leaves the
    session recording, with no call of [on_finish]. *)
Theorem session_finishes_when_pressed_equals_released :
  (∀ self k key_name,
     HotkeyRecorder.recording self = true →
     HotkeyRecorder._get_key_name k = Some key_name →
     nonempty key_name = true →
     let after := HotkeyRecorder.with_release key_name self in
     let complete :=
       HotkeyRecorder.all_pressed_keys self ≠ ∅
       ∧ HotkeyRecorder.all_pressed_keys self
         = {[key_name]} ∪ HotkeyRecorder.released_keys self in
     (complete →
      HotkeyRecorder._on_key_release k self
      = (false, HotkeyRecorder._finish_recording after)
      ∧ HotkeyRecorder.recording (HotkeyRecorder._finish_recording after) = false
      ∧ (HotkeyRecorder.on_finish_callback self = true →
         ∃ hotkey error,
           HotkeyRecorder.calls (HotkeyRecorder._finish_recording after)
           = HotkeyRecorder.calls self ++ [HotkeyRecorder.on_finish hotkey error]))
     ∧ (¬ complete →
        HotkeyRecorder._on_key_release k self = (true, after)
        ∧ HotkeyRecorder.recording after = true
        ∧ HotkeyRecorder.calls after = HotkeyRecorder.calls self))
  ∧ (∀ on_update presses releases,
       HotkeyRecorder._get_key_name <$> presses ≡ₚ HotkeyRecorder.chord →
       HotkeyRecorder._get_key_name <$> releases ≡ₚ HotkeyRecorder.chord →
       let final :=
         HotkeyRecorder.deliver
           ((HotkeyRecorder.press <$> presses)
            ++ (HotkeyRecorder.release <$> releases))
           (HotkeyRecorder.start_recording on_update true
              HotkeyRecorder.__init__) in
       HotkeyRecorder.recording final = false
       ∧ filter (λ c, HotkeyRecorder.is_on_finish c) (HotkeyRecorder.calls final)
         = [HotkeyRecorder.on_finish (Some "<ctrl>+<alt>+a") None]
       ∧ last (HotkeyRecorder.calls final)
         = Some (HotkeyRecorder.on_finish (Some "<ctrl>+<alt>+a") None))
  ∧ (∀ on_update presses releases,
       HotkeyRecorder._get_key_name <$> presses ≡ₚ HotkeyRecorder.chord →
       HotkeyRecorder._get_key_name <$> releases ≡ₚ [Some "ctrl"; Some "alt"] →
       let final :=
         HotkeyRecorder.deliver
           ((HotkeyRecorder.press <$> presses)
            ++ (HotkeyRecorder.release <$> releases))
           (HotkeyRecorder.start_recording on_update true
              HotkeyRecorder.__init__) in
       HotkeyRecorder.recording final = true
       ∧ filter (λ c, HotkeyRecorder.is_on_finish c) (HotkeyRecorder.calls final)
         = []).
Proof.
  split_and!.
  - intros self k key_name Hr Hk Hn. cbv zeta.
    destruct (on_key_release_cases self k key_name Hr Hk Hn) as [Hyes Hno].
    split.
    + intros Hc. split_and!.
      * by apply Hyes.
      * apply finish_recording_stops.
      * intros Hf.
        exact (finish_recording_calls
                 (HotkeyRecorder.with_release key_name self) Hf).
    + intros Hc. split_and!; [by apply Hno|done..].
  - intros on_update presses releases Hp%symmetry Hr%symmetry.
    apply permutations_Permutation in Hp, Hr.
    destruct (chord_run on_update _ _ Hp Hr) as (Ep & Er & Hfinal).
    cbv zeta.
    rewrite (deliver_event_names _
               ((HotkeyRecorder.press
                   <$> (HotkeyRecorder.key_named
                          <$> (HotkeyRecorder._get_key_name <$> presses)))
                ++ (HotkeyRecorder.release
                      <$> (HotkeyRecorder.key_named
                             <$> (HotkeyRecorder._get_key_name <$> releases))))).
    + apply Hfinal.
    + by rewrite !event_names_of_chord, Ep, Er.
  - intros on_update presses releases Hp%symmetry Hr%symmetry.
    apply permutations_Permutation in Hp, Hr.
    destruct (partial_release_run on_update _ _ Hp Hr) as (Ep & Er & Hfinal).
    cbv zeta.
    rewrite (deliver_event_names _
               ((HotkeyRecorder.press
                   <$> (HotkeyRecorder.key_named
                          <$> (HotkeyRecorder._get_key_name <$> presses)))
                ++ (HotkeyRecorder.release
                      <$> (HotkeyRecorder.key_named
                             <$> (HotkeyRecorder._get_key_name <$> releases))))).
    + apply Hfinal.
    + by rewrite !event_names_of_chord, Ep, Er.
Qed.

Lemma session_finishes_when_pressed_equals_released_witness :
  let ctrl := HotkeyRecorder.Key "ctrl_r" in
  let alt := HotkeyRecorder.Key "alt_l" in
  let a := HotkeyRecorder.KeyCode (Some 65) (Some "A") in
  let start :=
    HotkeyRecorder.start_recording true true HotkeyRecorder.__init__ in
  let held :=
    HotkeyRecorder.deliver
      [HotkeyRecorder.press a; HotkeyRecorder.press ctrl;
       HotkeyRecorder.press alt; HotkeyRecorder.release ctrl;
       HotkeyRecorder.release a] start in
  (HotkeyRecorder._on_key_release alt held).1 = false
  ∧ (HotkeyRecorder._on_key_release a held).1 = true
  ∧ last (HotkeyRecorder.calls
            (HotkeyRecorder.deliver
               ((HotkeyRecorder.press <$> [a; ctrl; alt])
                ++ (HotkeyRecorder.release <$> [alt; a; ctrl])) start))
    = Some (HotkeyRecorder.on_finish (Some "<ctrl>+<alt>+a") None)
  ∧ HotkeyRecorder.recording
      (HotkeyRecorder.deliver
         ((HotkeyRecorder.press <$> [a; ctrl; alt])
          ++ (HotkeyRecorder.release <$> [alt; ctrl])) start)
    = true.
Proof.
  cbv zeta.
  destruct session_finishes_when_pressed_equals_released
    as (Hrelease & Hchord & Hpartial).
  split_and!.
  - match goal with |- (HotkeyRecorder._on_key_release _ ?held).1 = _ =>
      destruct (Hrelease held (HotkeyRecorder.Key "alt_l") "alt")
        as [Hyes _]; [by vm_compute..|]
    end.
    destruct Hyes as [-> _]; [by_evaluation|reflexivity].
  - match goal with |- (HotkeyRecorder._on_key_release _ ?held).1 = _ =>
      destruct (Hrelease held (HotkeyRecorder.KeyCode (Some 65) (Some "A")) "a")
        as [_ Hno]; [by vm_compute..|]
    end.
    destruct Hno as [-> _]; [by_evaluation|reflexivity].
  - eapply (Hchord true
              [HotkeyRecorder.KeyCode (Some 65) (Some "A");
               HotkeyRecorder.Key "ctrl_r"; HotkeyRecorder.Key "alt_l"]
              [HotkeyRecorder.Key "alt_l";
               HotkeyRecorder.KeyCode (Some 65) (Some "A");
               HotkeyRecorder.Key "ctrl_r"]);
      apply permutations_Permutation; by_evaluation.
  - eapply (Hpartial true
              [HotkeyRecorder.KeyCode (Some 65) (Some "A");
               HotkeyRecorder.Key "ctrl_r"; HotkeyRecorder.Key "alt_l"]
              [HotkeyRecorder.Key "alt_l"; HotkeyRecorder.Key "ctrl_r"]);
      apply permutations_Permutation; by_evaluation.
Defined.

(** C5, as amended.  [_finish_recording], entered when no key was ever
    pressed, stops the recording and calls [on_finish] with no
    combination and the error for no key detected.  [stop_recording]
    itself calls nothing, and while no key was ever pressed a release
    event calls nothing and leaves the recording as it was. *)
Theorem finish_with_no_key_pressed :
  (∀ self,
     HotkeyRecorder.all_pressed_keys self = ∅ →
     HotkeyRecorder.on_finish_callback self = true →
     HotkeyRecorder._finish_recording self
     = HotkeyRecorder.invoke
         (HotkeyRecorder.on_finish None
            (Some (t "hotkey.recorder.error.no_key_detected")))
         (HotkeyRecorder.stop_recording self))
  ∧ (∀ self,
       HotkeyRecorder.recording (HotkeyRecorder.stop_recording self) = false
       ∧ HotkeyRecorder.calls (HotkeyRecorder.stop_recording self)
         = HotkeyRecorder.calls self)
  ∧ (∀ self k,
       HotkeyRecorder.all_pressed_keys self = ∅ →
       HotkeyRecorder.recording (HotkeyRecorder._on_key_release k self).2
       = HotkeyRecorder.recording self
       ∧ HotkeyRecorder.calls (HotkeyRecorder._on_key_release k self).2
         = HotkeyRecorder.calls self).
Proof.
  split_and!.
  - intros self Hall Hf. unfold HotkeyRecorder._finish_recording.
    rewrite bool_decide_eq_true_2 by done. simpl. by rewrite Hf.
  - done.
  - intros self k Hall. unfold HotkeyRecorder._on_key_release.
    destruct (HotkeyRecorder.recording self) eqn:Hr; simpl; [|done].
    destruct (HotkeyRecorder._get_key_name k) as [key_name|]; [|done].
    destruct (nonempty key_name); [|done]. simpl.
    rewrite (bool_decide_eq_false_2 (_ ≠ _)) by (intros Hne; by apply Hne).
    done.
Qed.

Lemma finish_with_no_key_pressed_witness :
  let self := HotkeyRecorder.start_recording true true HotkeyRecorder.__init__ in
  HotkeyRecorder.calls (HotkeyRecorder._finish_recording self)
  = [HotkeyRecorder.on_finish None
       (Some (t "hotkey.recorder.error.no_key_detected"))]
  ∧ HotkeyRecorder.calls
      (HotkeyRecorder._on_key_release (HotkeyRecorder.Key "enter") self).2
    = [].
Proof.
  cbv zeta. destruct finish_with_no_key_pressed as (Hfinish & _ & Hrelease).
  split.
  - rewrite Hfinish; reflexivity.
  - apply Hrelease. reflexivity.
Defined.

(** The claim of C5 does not hold of [stop_recording]: a recording that
    is stopped before any key was pressed ends without a call of
    [on_finish]. *)
Lemma stop_with_no_key_pressed_calls_nothing :
  let self := HotkeyRecorder.start_recording true true HotkeyRecorder.__init__ in
  HotkeyRecorder.recording self = true
  ∧ HotkeyRecorder.all_pressed_keys self = ∅
  ∧ HotkeyRecorder.recording (HotkeyRecorder.stop_recording self) = false
  ∧ HotkeyRecorder.calls (HotkeyRecorder.stop_recording self) = [].
Proof. done. Qed.

(** C6, as amended.  While recording, [on_update] is called on every
    press of a key that has a name, with the display form of the keys
    pressed so far; a release calls [on_update] never.  The calls made
    during any run of key events are calls of [on_update] followed by at
    most one call of [on_finish], and once the recording has stopped
    (as it has after [on_finish]) no event adds a call. *)
Theorem callbacks_of_a_session :
  (∀ self k key_name,
     HotkeyRecorder.recording self = true →
     HotkeyRecorder.on_update_callback self = true →
     HotkeyRecorder._get_key_name k = Some key_name →
     nonempty key_name = true →
     HotkeyRecorder.calls (HotkeyRecorder._on_key_press k self)
     = HotkeyRecorder.calls self
       ++ [HotkeyRecorder.on_update
             (HotkeyRecorder._format_keys_for_display
                (HotkeyRecorder.with_press key_name self))])
  ∧ (∀ self k,
       filter (λ c, HotkeyRecorder.is_on_update c)
              (HotkeyRecorder.calls (HotkeyRecorder._on_key_release k self).2)
       = filter (λ c, HotkeyRecorder.is_on_update c) (HotkeyRecorder.calls self))
  ∧ (∀ self events,
       ∃ updates finish,
         HotkeyRecorder.calls (HotkeyRecorder.deliver events self)
         = HotkeyRecorder.calls self ++ updates ++ finish
         ∧ forallb HotkeyRecorder.is_on_update updates = true
         ∧ (finish = []
            ∨ ∃ hotkey error,
                finish = [HotkeyRecorder.on_finish hotkey error]
                ∧ HotkeyRecorder.recording (HotkeyRecorder.deliver events self)
                  = false))
  ∧ (∀ self events,
       HotkeyRecorder.recording self = false →
       HotkeyRecorder.deliver events self = self).
Proof.
  split_and!.
  - intros self k key_name Hr Hu Hk Hn.
    by rewrite (on_key_press_calls self k key_name).
  - intros self k.
    destruct (on_key_release_calls self k) as [->|(hotkey & error & ->)];
      [done|].
    rewrite filter_app. change (filter _ [_]) with (@nil HotkeyRecorder.call).
    by rewrite app_nil_r.
  - intros self events. apply deliver_trace.
  - intros self events. apply deliver_stopped.
Qed.

Lemma callbacks_of_a_session_witness :
  let self := HotkeyRecorder.start_recording true true HotkeyRecorder.__init__ in
  HotkeyRecorder.calls
    (HotkeyRecorder._on_key_press (HotkeyRecorder.Key "ctrl_l") self)
  = [HotkeyRecorder.on_update "Ctrl"]
  ∧ HotkeyRecorder.deliver
      [HotkeyRecorder.press (HotkeyRecorder.Key "ctrl_l")]
      (HotkeyRecorder.stop_recording self)
    = HotkeyRecorder.stop_recording self.
Proof.
  cbv zeta. destruct callbacks_of_a_session as (Hpress & _ & _ & Hstopped).
  split.
  - rewrite (Hpress _ (HotkeyRecorder.Key "ctrl_l") "ctrl");
      [by vm_compute|reflexivity..].
  - apply Hstopped. reflexivity.
Defined.

(** The claim of C6 does not hold of releases: releasing ctrl while a
    is still held changes the keys that are down and calls nothing. *)
Lemma release_calls_no_on_update :
  let self :=
    HotkeyRecorder.deliver
      [HotkeyRecorder.press (HotkeyRecorder.Key "ctrl_l");
       HotkeyRecorder.press (HotkeyRecorder.KeyCode (Some 65) (Some "a"))]
      (HotkeyRecorder.start_recording true true HotkeyRecorder.__init__) in
  let after :=
    (HotkeyRecorder._on_key_release (HotkeyRecorder.Key "ctrl_l") self).2 in
  HotkeyRecorder.recording self = true
  ∧ HotkeyRecorder.pressed_keys after ≠ HotkeyRecorder.pressed_keys self
  ∧ HotkeyRecorder.recording after = true
  ∧ HotkeyRecorder.calls after = HotkeyRecorder.calls self.
Proof. cbv zeta. split_and!; by vm_compute. Qed.

(** ** Numbers in headers *)

Section numbers.
Import Specified.

Lemma forall_chars_impl (p q : ascii → bool) s :
  (∀ c, p c = true → q c = true) →
  forall_chars p s = true → forall_chars q s = true.
Proof.
  intros Hpq. induction s as [|c s IH]; simpl; [done|].
  intros [Hc Hs]%andb_prop. by rewrite (Hpq c Hc), IH.
Qed.

Lemma forall_chars_lstrip p sp s :
  forall_chars p s = true → forall_chars p (lstrip sp s) = true.
Proof.
  induction s as [|c s IH]; simpl; [done|].
  intros [Hc Hs]%andb_prop. destruct (sp c); [by apply IH|].
  simpl. by rewrite Hc, Hs.
Qed.

Lemma forall_chars_rstrip p sp s :
  forall_chars p s = true → forall_chars p (rstrip sp s) = true.
Proof.
  induction s as [|c s IH]; simpl; [done|].
  intros [Hc Hs]%andb_prop. specialize (IH Hs).
  destruct (rstrip sp s) as [|c' r]; [destruct (sp c); simpl; by rewrite ?Hc|].
  change (forall_chars p (String c (String c' r)))
    with (p c && forall_chars p (String c' r)).
  by rewrite Hc, IH.
Qed.

Lemma forall_chars_strip p s :
  forall_chars p s = true → forall_chars p (strip s) = true.
Proof. intros H. by apply forall_chars_rstrip, forall_chars_lstrip. Qed.

Lemma decode_ascii_ignore_ascii s :
  forall_chars is_ascii (decode_ascii_ignore s) = true.
Proof.
  induction s as [|c s IH]; simpl; [done|].
  destruct (is_ascii c) eqn:Hc; [|done]. simpl. by rewrite Hc, IH.
Qed.

Lemma ascii_digit_decimal c : is_ascii c = true → is_digit c = is_decimal c.
Proof. by destruct c as [[] [] [] [] [] [] [] []]. Qed.

Lemma decimal_is_digit c : is_decimal c = true → is_digit c = true.
Proof. by destruct c as [[] [] [] [] [] [] [] []]. Qed.

Lemma decimal_not_space c : is_decimal c = true → is_space_int c = false.
Proof. by destruct c as [[] [] [] [] [] [] [] []]. Qed.

Lemma decimal_not_sign c :
  is_decimal c = true → c ≠ "-"%char ∧ c ≠ "+"%char ∧ c ≠ "_"%char.
Proof. by destruct c as [[] [] [] [] [] [] [] []]. Qed.

(** For text without characters above U+007F, [isdigit] is [numeric]. *)
Lemma isdigit_ascii s : forall_chars is_ascii s = true → isdigit s = numeric s.
Proof.
  unfold isdigit, numeric. intros Ha. f_equal.
  induction s as [|c s IH]; simpl in *; [done|].
  apply andb_prop in Ha as [Hc Hs]. by rewrite (ascii_digit_decimal c Hc), IH.
Qed.

Lemma numeric_isdigit s : numeric s = true → isdigit s = true.
Proof.
  unfold isdigit, numeric. intros [-> Hd]%andb_prop. simpl.
  apply (forall_chars_impl is_decimal); [apply decimal_is_digit|done].
Qed.

Lemma rstrip_no_space s :
  forall_chars (λ c, negb (is_space_int c)) s = true →
  rstrip is_space_int s = s.
Proof.
  induction s as [|c s IH]; simpl; [done|].
  intros [Hc Hs]%andb_prop. rewrite (IH Hs).
  apply negb_true_iff in Hc. rewrite Hc. by destruct s.
Qed.

Lemma strip_numeric s :
  numeric s = true → rstrip is_space_int (lstrip is_space_int s) = s.
Proof.
  unfold numeric. intros [Hn Hd]%andb_prop.
  assert (forall_chars (λ c, negb (is_space_int c)) s = true) as Hs.
  { apply (forall_chars_impl is_decimal); [|done].
    intros c Hc. by rewrite (decimal_not_space c Hc). }
  destruct s as [|c s]; [done|]. simpl in Hs |- *.
  apply andb_prop in Hs as [Hc Hs]. apply negb_true_iff in Hc. rewrite Hc.
  apply (rstrip_no_space (String c s)). simpl. by rewrite Hc, Hs.
Qed.

Lemma parse_decimal_digits acc after_digit s :
  forall_chars is_decimal s = true →
  nonempty s || after_digit = true →
  parse_decimal acc after_digit s = Some (decimal_from acc s).
Proof.
  revert acc after_digit. induction s as [|c s IH]; intros acc after_digit.
  - simpl. by intros _ ->.
  - simpl. intros [Hc Hs]%andb_prop _. rewrite Hc. apply IH; [done|].
    by rewrite orb_true_r.
Qed.

(** [int] reads a numeric text as its decimal value. *)
Lemma int_numeric s : numeric s = true → int s = Ok (decimal_value s).
Proof.
  intros Hn. unfold int. rewrite (strip_numeric s Hn).
  unfold numeric in Hn. apply andb_prop in Hn as [Hne Hd].
  destruct s as [|c s]; [done|].
  assert (is_decimal c = true) as Hc by (simpl in Hd; by apply andb_prop in Hd as [? _]).
  destruct (decimal_not_sign c Hc) as (Hminus & Hplus & _).
  assert (parse_decimal 0 false (String c s)
          = Some (decimal_value (String c s))) as Hp
    by by apply parse_decimal_digits.
  destruct c as [[] [] [] [] [] [] [] []]; try done; by rewrite Hp.
Qed.

Lemma digit_value_pretty_N_char x :
  (x < 10)%N →
  is_decimal (pretty_N_char x) = true
  ∧ digit_value (pretty_N_char x) = Z.of_N x.
Proof.
  intros Hx.
  assert (x ∈ [0; 1; 2; 3; 4; 5; 6; 7; 8; 9]%N) as Hin.
  { rewrite !elem_of_cons. lia. }
  rewrite !elem_of_cons, elem_of_nil in Hin. destruct_or!; by subst.
Qed.

Lemma pretty_N_go_decimal x s :
  forall_chars is_decimal (pretty_N_go x s) = forall_chars is_decimal s
  ∧ (nonempty s = true ∨ (0 < x)%N → nonempty (pretty_N_go x s) = true)
  ∧ decimal_from 0 (pretty_N_go x s) = decimal_from (Z.of_N x) s.
Proof.
  revert s. induction (N.lt_wf_0 x) as [x _ IH]; intros s.
  assert (x = 0 ∨ 0 < x)%N as [->|Hx] by lia.
  { rewrite pretty_N_go_0. split_and!; [done| |done]. intros [?|?]; [done|lia]. }
  rewrite pretty_N_go_step by done.
  destruct (IH (x `div` 10)%N (N.div_lt x 10 Hx eq_refl)
              (String (pretty_N_char (x `mod` 10)) s))
    as (Hall & Hne & Hval).
  destruct (digit_value_pretty_N_char (x `mod` 10)%N) as [Hd Hv].
  { by apply N.mod_lt. }
  split_and!.
  - rewrite Hall. simpl. by rewrite Hd.
  - intros _. apply Hne. by left.
  - rewrite Hval.
    change (decimal_from ?a (String ?c ?r))
      with (decimal_from (10 * a + digit_value c) r).
    f_equal. rewrite Hv.
    pose proof (N.div_mod x 10 ltac:(done)) as Hdm. lia.
Qed.

(** [str] of a natural number is numeric and [int] reads it back. *)
Lemma numeric_pretty n : 0 ≤ n → numeric (pretty n) = true ∧ decimal_value (pretty n) = n.
Proof.
  intros Hn. destruct n as [|p|p]; [done| |lia].
  change (pretty (Z.pos p)) with (pretty_N_go (N.pos p) "").
  destruct (pretty_N_go_decimal (N.pos p) "") as (Hall & Hne & Hval).
  unfold numeric, decimal_value. rewrite Hall, Hne by (by right).
  split; [done|]. by rewrite Hval.
Qed.

End numbers.

(** ** The CF_HTML extraction *)

Section extraction.
Import Clipboard Specified.

Lemma read_meta_bytes_ascii lines meta :
  ascii_values meta → ascii_values (read_meta_bytes lines meta).
Proof.
  revert meta. induction lines as [|raw_line lines IH]; intros meta Hm; [done|].
  cbn [read_meta_bytes].
  destruct (startswith _ (strip_bytes raw_line)); [done|].
  destruct (contains_char _ raw_line); [|by apply IH].
  destruct (split_once _ raw_line) as [k v]. apply IH.
  destruct (nonempty (strip (decode_ascii_ignore k))); [|done].
  intros key w. destruct (decide (strip (decode_ascii_ignore k) = key)) as [<-|Hne].
  - rewrite lookup_insert_eq. intros [= <-].
    apply forall_chars_strip, decode_ascii_ignore_ascii.
  - rewrite lookup_insert_ne by done. apply Hm.
Qed.

Lemma header_meta_ascii data :
  ascii_values (read_meta_bytes (splitlines_bytes data) ∅).
Proof. apply read_meta_bytes_ascii. intros key v. by rewrite lookup_empty. Qed.

Lemma offset_Some meta key n :
  ascii_values meta → offset meta key = Some n →
  isdigit (default "" (meta !! key)) = true
  ∧ int (default "" (meta !! key)) = Ok n.
Proof.
  unfold offset. intros Hm.
  destruct (meta !! key) as [v|] eqn:Hv; simpl; [|done].
  destruct (numeric v) eqn:Hn; [|done]. intros [= <-].
  split; [by apply numeric_isdigit|by apply int_numeric].
Qed.

Lemma offset_None meta key :
  ascii_values meta → offset meta key = None →
  isdigit (default "" (meta !! key)) = false.
Proof.
  unfold offset. intros Hm.
  destruct (meta !! key) as [v|] eqn:Hv; simpl; [|done].
  rewrite (isdigit_ascii v) by (by eapply Hm).
  by destruct (numeric v).
Qed.

(** The bound of the third tier: the header when numeric, the default
    otherwise; the text of the default is numeric too. *)
Lemma html_bound meta key fallback :
  ascii_values meta → 0 ≤ fallback →
  (if isdigit (default (pretty fallback) (meta !! key))
   then int (default (pretty fallback) (meta !! key))
   else Ok fallback)
  = Ok (default fallback (offset meta key)).
Proof.
  unfold offset. intros Hm Hf.
  destruct (meta !! key) as [v|] eqn:Hv; simpl.
  - rewrite (isdigit_ascii v) by (by eapply Hm).
    destruct (numeric v) eqn:Hn; [|done]. by apply int_numeric.
  - destruct (numeric_pretty fallback Hf) as [Hn Hval].
    by rewrite (numeric_isdigit _ Hn), (int_numeric _ Hn), Hval.
Qed.

Lemma len_nonneg s : 0 ≤ len s.
Proof. unfold len. lia. Qed.

Lemma extract_html_fragment_bytes_selected {unicode} (decode : string → unicode) data :
  _extract_html_fragment_bytes decode data = Ok (decode (selected_bytes data)).
Proof.
  unfold _extract_html_fragment_bytes, selected_bytes.
  pose proof (header_meta_ascii data) as Hm.
  set (meta := read_meta_bytes (splitlines_bytes data) ∅) in *.
  assert (otherwise
            (try_except
               (start ← (if isdigit (default "0" (meta !! "StartHTML"))
                         then int (default "0" (meta !! "StartHTML")) else Ok 0);
                end_ ← (if isdigit (default (pretty (len data)) (meta !! "EndHTML"))
                        then int (default (pretty (len data)) (meta !! "EndHTML"))
                        else Ok (len data));
                if (0 <=? start) && (start <=? end_) && (end_ <=? len data)
                then Ok (Some (decode (slice data start end_)))
                else Ok None)
               (Ok None))
            (Ok (decode data))
          = Ok (decode (match html_tier meta data with
                        | Some html => html
                        | None => data
                        end))) as Htier3.
  { pose proof (html_bound meta "StartHTML" 0 Hm ltac:(done)) as Hstart.
    change (pretty 0) with "0" in Hstart. rewrite Hstart.
    rewrite (html_bound meta "EndHTML" (len data) Hm) by apply len_nonneg.
    unfold html_tier, valid_range. simpl.
    by destruct (_ && _). }
  assert ((match search_fragment data with
           | Some group1 => Ok (decode group1)
           | None =>
               otherwise
                 (try_except
                    (start ← (if isdigit (default "0" (meta !! "StartHTML"))
                              then int (default "0" (meta !! "StartHTML")) else Ok 0);
                     end_ ← (if isdigit (default (pretty (len data)) (meta !! "EndHTML"))
                             then int (default (pretty (len data)) (meta !! "EndHTML"))
                             else Ok (len data));
                     if (0 <=? start) && (start <=? end_) && (end_ <=? len data)
                     then Ok (Some (decode (slice data start end_)))
                     else Ok None)
                    (Ok None))
                 (Ok (decode data))
           end)
          = Ok (decode (match anchor_tier data with
                        | Some fragment => fragment
                        | None =>
                            match html_tier meta data with
                            | Some html => html
                            | None => data
                            end
                        end))) as Hrest.
  { unfold anchor_tier. by destruct (search_fragment data). }
  rewrite Hrest. clear Hrest Htier3. unfold fragment_tier.
  destruct (offset meta "StartFragment") as [start|] eqn:Hs; simpl.
  - destruct (offset_Some _ _ _ Hm Hs) as [Hd1 Hi1].
    destruct (offset meta "EndFragment") as [stop|] eqn:He; simpl.
    + destruct (offset_Some _ _ _ Hm He) as [Hd2 Hi2].
      rewrite Hd1, Hd2, Hi1, Hi2. simpl. unfold valid_range.
      by destruct (_ && _).
    + by rewrite (offset_None _ _ Hm He), andb_false_r.
  - by rewrite (offset_None _ _ Hm Hs).
Qed.

End extraction.

Lemma slice_in_range data start stop :
  0 ≤ start ≤ stop → stop ≤ len data →
  slice data start stop
  = take (Z.to_nat (stop - start)) (drop (Z.to_nat start) data).
Proof.
  intros Hs He. unfold slice, clamp_index.
  rewrite (proj2 (Z.ltb_ge start 0)), (proj2 (Z.ltb_ge stop 0)) by lia.
  by rewrite !Z.min_l by lia.
Qed.

(** C4.  The byte-oriented extraction returns the decoding of the bytes
    that the tiers select, in this order of precedence: the slice between
    the offsets of StartFragment and EndFragment when both headers are
    present and numeric and the offsets are in order and within the
    data; otherwise the group between the fragment comments when they
    are found; otherwise the slice between the offsets of StartHTML and
    EndHTML, which default to zero and to the length of the data, when
    they are in order and within the data; otherwise all of the data.
    With StartFragment 10 and EndFragment 20 and at least 20 bytes of
    data it is the decoding of bytes 10 to 20. *)
Theorem extract_html_fragment_bytes_tiers
    {unicode : Type} (decode : string → unicode) (data : string) :
  let meta := Clipboard.read_meta_bytes (splitlines_bytes data) ∅ in
  let result := Clipboard._extract_html_fragment_bytes decode data in
  result = Ok (decode (Specified.selected_bytes data))
  ∧ (∀ start stop,
       Specified.offset meta "StartFragment" = Some start →
       Specified.offset meta "EndFragment" = Some stop →
       0 ≤ start ≤ stop → stop ≤ len data →
       result = Ok (decode (slice data start stop)))
  ∧ (∀ group1,
       Specified.fragment_tier meta data = None →
       Clipboard.search_fragment data = Some group1 →
       result = Ok (decode group1))
  ∧ (∀ html,
       Specified.fragment_tier meta data = None →
       Clipboard.search_fragment data = None →
       Specified.html_tier meta data = Some html →
       result = Ok (decode html))
  ∧ (Specified.fragment_tier meta data = None →
     Clipboard.search_fragment data = None →
     Specified.html_tier meta data = None →
     result = Ok (decode data))
  ∧ (Specified.offset meta "StartFragment" = Some 10 →
     Specified.offset meta "EndFragment" = Some 20 →
     20 ≤ len data →
     result = Ok (decode (take 10 (drop 10 data)))).
Proof.
  cbv zeta. rewrite extract_html_fragment_bytes_selected.
  unfold Specified.selected_bytes, Specified.anchor_tier.
  set (meta := Clipboard.read_meta_bytes (splitlines_bytes data) ∅).
  split_and!.
  - done.
  - intros start stop Hs He Horder Hlen. unfold Specified.fragment_tier.
    rewrite Hs, He. simpl. unfold Specified.valid_range.
    rewrite (proj2 (Z.leb_le 0 start)), (proj2 (Z.leb_le start stop)),
      (proj2 (Z.leb_le stop (len data))) by lia.
    done.
  - by intros group1 -> ->.
  - by intros html -> -> ->.
  - by intros -> -> ->.
  - intros Hs He Hlen. unfold Specified.fragment_tier.
    rewrite Hs, He. simpl. unfold Specified.valid_range.
    rewrite (proj2 (Z.leb_le 20 (len data))) by lia. simpl.
    by rewrite slice_in_range by lia.
Qed.

Lemma extract_html_fragment_bytes_tiers_witness :
  let data :=
    "StartFragment:10" +:+ String "010" ("EndFragment:20" +:+ String "010"
      "<html><body><!--StartFragment-->Hello<!--EndFragment--></body></html>") in
  Clipboard._extract_html_fragment_bytes utf8_decode_ignore data
  = Ok (utf8_decode_ignore (take 10 (drop 10 data)))
  ∧ Clipboard._extract_html_fragment_bytes utf8_decode_ignore
      ("StartFragment:2" +:+ String "010" "EndFragment:7")
    = Ok (utf8_decode_ignore "artFr")
  ∧ Clipboard._extract_html_fragment_bytes utf8_decode_ignore
      "<!--StartFragment-->X<!--EndFragment-->"
    = Ok (utf8_decode_ignore "X")
  ∧ Clipboard._extract_html_fragment_bytes utf8_decode_ignore "StartHTML:6"
    = Ok (utf8_decode_ignore "TML:6")
  ∧ Clipboard._extract_html_fragment_bytes utf8_decode_ignore "StartHTML:99"
    = Ok (utf8_decode_ignore "StartHTML:99").
Proof.
  cbv zeta. split_and!.
  - match goal with |- Clipboard._extract_html_fragment_bytes _ ?data = _ =>
      destruct (extract_html_fragment_bytes_tiers utf8_decode_ignore data)
        as (_ & _ & _ & _ & _ & Hfragment)
    end.
    apply Hfragment; by vm_compute.
  - destruct (extract_html_fragment_bytes_tiers utf8_decode_ignore
                ("StartFragment:2" +:+ String "010" "EndFragment:7"))
      as (_ & Hoffsets & _).
    apply (Hoffsets 2 7); by vm_compute.
  - destruct (extract_html_fragment_bytes_tiers utf8_decode_ignore
                "<!--StartFragment-->X<!--EndFragment-->")
      as (_ & _ & Hanchor & _).
    apply Hanchor; by vm_compute.
  - destruct (extract_html_fragment_bytes_tiers utf8_decode_ignore "StartHTML:6")
      as (_ & _ & _ & Hhtml & _).
    apply Hhtml; by vm_compute.
  - destruct (extract_html_fragment_bytes_tiers utf8_decode_ignore "StartHTML:99")
      as (_ & _ & _ & _ & Hall & _).
    apply Hall; by vm_compute.
Defined.

(** C1.  The text-oriented extraction raises on a header that is not a
    number: the value of StartHTML is given to [int] outside every
    [try].  The byte-oriented extraction returns a text on every input,
    on this one the decoding of all of it. *)
Theorem extract_html_fragment_raises :
  Clipboard._extract_html_fragment "StartHTML:abc" = Raise ValueError
  ∧ Clipboard._extract_html_fragment_bytes utf8_decode_ignore "StartHTML:abc"
    = Ok (utf8_decode_ignore "StartHTML:abc")
  ∧ ∀ (unicode : Type) (decode : string → unicode) (data : string),
      ∃ text, Clipboard._extract_html_fragment_bytes decode data = Ok text.
Proof.
  split_and!; [by vm_compute..|].
  intros unicode decode data. eexists.
  apply extract_html_fragment_bytes_selected.
Qed.

(** ** The CF_HTML poll *)

Lemma attempt_once_inconclusive a :
  Clipboard.inconclusive a → Clipboard.attempt_once a = Ok None.
Proof.
  unfold Clipboard.inconclusive, Clipboard.attempt_once. intros H.
  destruct (Clipboard.OpenClipboard a) as [u|e0]; [|done].
  destruct H as [[e H]|[[e H]|[Ha [[e H]|H]]]]; try done;
    rewrite ?Ha, H; simpl; by destruct (Clipboard.CloseClipboard a).
Qed.

(** C7.  The poll returns the data of the first pass that reads some;
    it returns [None] at once, later passes not begun, when a pass finds
    the format unavailable; it returns [None] when the deadline passes;
    a pass in which opening the clipboard, the availability check or the
    read raises, or in which the read gives [None], only leads to the
    next pass; and no exception leaves the function, which returns data
    only when a pass has read it and [None] in every other case. *)
Theorem try_read_cf_html_outcomes :
  (∀ a rest data u,
     Clipboard.OpenClipboard a = Ok u →
     Clipboard.IsClipboardFormatAvailable a = Ok true →
     Clipboard.GetClipboardData a = Ok (Some data) →
     Clipboard._try_read_cf_html (Ok ()) (a :: rest) = (Ok (Some data), rest))
  ∧ (∀ a rest u,
       Clipboard.OpenClipboard a = Ok u →
       Clipboard.IsClipboardFormatAvailable a = Ok false →
       Clipboard._try_read_cf_html (Ok ()) (a :: rest) = (Ok None, rest))
  ∧ Clipboard._try_read_cf_html (Ok ()) [] = (Ok None, [])
  ∧ (∀ a rest,
       Clipboard.inconclusive a →
       Clipboard._try_read_cf_html (Ok ()) (a :: rest)
       = Clipboard._try_read_cf_html (Ok ()) rest)
  ∧ (∀ attempts,
       Forall Clipboard.inconclusive attempts →
       Clipboard._try_read_cf_html (Ok ()) attempts = (Ok None, []))
  ∧ (∀ register attempts,
       ∃ outcome, (Clipboard._try_read_cf_html register attempts).1 = Ok outcome)
  ∧ (∀ register attempts data,
       (Clipboard._try_read_cf_html register attempts).1 = Ok (Some data) →
       ∃ u a, register = Ok u ∧ a ∈ attempts
              ∧ Clipboard.IsClipboardFormatAvailable a = Ok true
              ∧ Clipboard.GetClipboardData a = Ok (Some data))
  ∧ (∀ e attempts,
       Clipboard._try_read_cf_html (Raise e) attempts = (Ok None, attempts)).
Proof.
  split_and!.
  - intros a rest data u Ho Ha Hg. simpl. unfold Clipboard.attempt_once.
    rewrite Ho, Ha, Hg. simpl. by destruct (Clipboard.CloseClipboard a).
  - intros a rest u Ho Ha. simpl. unfold Clipboard.attempt_once.
    rewrite Ho, Ha. simpl. by destruct (Clipboard.CloseClipboard a).
  - done.
  - intros a rest H. simpl. by rewrite (attempt_once_inconclusive a H).
  - intros attempts Hall. simpl.
    induction Hall as [|a attempts Ha _ IH]; simpl; [done|].
    by rewrite (attempt_once_inconclusive a Ha).
  - intros [u|e] attempts; simpl; [|by eexists].
    induction attempts as [|a attempts IH]; simpl; [by eexists|].
    unfold Clipboard.attempt_once.
    destruct (Clipboard.OpenClipboard a); [|done].
    destruct (Clipboard.IsClipboardFormatAvailable a) as [[]|];
      destruct (Clipboard.GetClipboardData a) as [[]|];
      destruct (Clipboard.CloseClipboard a); simpl; by eauto.
  - intros [u|e] attempts data; simpl; [|done].
    induction attempts as [|a attempts IH]; simpl; [done|].
    assert ((Clipboard.poll attempts).1 = Ok (Some data) →
            ∃ u' a', Ok u = Ok u' ∧ a' ∈ a :: attempts
                     ∧ Clipboard.IsClipboardFormatAvailable a' = Ok true
                     ∧ Clipboard.GetClipboardData a' = Ok (Some data)) as Hlater.
    { intros (u' & a' & ? & ? & ? & ?)%IH. exists u', a'.
      split_and!; try done. by right. }
    unfold Clipboard.attempt_once.
    destruct (Clipboard.OpenClipboard a) eqn:Ho; [|done].
    destruct (Clipboard.IsClipboardFormatAvailable a) as [[]|] eqn:Ha;
      destruct (Clipboard.GetClipboardData a) as [[d|]|] eqn:Hg;
      destruct (Clipboard.CloseClipboard a); simpl; try done.
    all: intros [= <-]; exists u, a; split_and!; try done; by left.
  - done.
Qed.

Lemma try_read_cf_html_outcomes_witness :
  let busy := {| Clipboard.OpenClipboard := Raise TypeError;
                 Clipboard.IsClipboardFormatAvailable := Ok true;
                 Clipboard.GetClipboardData := Ok None;
                 Clipboard.CloseClipboard := Ok () |} in
  let ready := {| Clipboard.OpenClipboard := Ok ();
                  Clipboard.IsClipboardFormatAvailable := Ok true;
                  Clipboard.GetClipboardData := Ok (Some (Clipboard.Str "x"));
                  Clipboard.CloseClipboard := Raise TypeError |} in
  let absent := {| Clipboard.OpenClipboard := Ok ();
                   Clipboard.IsClipboardFormatAvailable := Ok false;
                   Clipboard.GetClipboardData := Raise TypeError;
                   Clipboard.CloseClipboard := Ok () |} in
  Clipboard._try_read_cf_html (Ok ()) [busy; ready; absent]
  = (Ok (Some (Clipboard.Str "x")), [absent])
  ∧ Clipboard._try_read_cf_html (Ok ()) [absent; ready] = (Ok None, [ready])
  ∧ Clipboard._try_read_cf_html (Ok ()) [busy; busy] = (Ok None, [])
  ∧ ∃ u a, Ok () = Ok u ∧ a ∈ [busy; ready]
           ∧ Clipboard.IsClipboardFormatAvailable a = Ok true
           ∧ Clipboard.GetClipboardData a = Ok (Some (Clipboard.Str "x")).
Proof.
  cbv zeta.
  destruct try_read_cf_html_outcomes
    as (Hread & Habsent & _ & Hretry & Hdeadline & _ & Hdata & _).
  split_and!.
  - rewrite Hretry by (left; by eexists). by apply (Hread _ _ _ ()).
  - by apply (Habsent _ _ ()).
  - apply Hdeadline. repeat constructor; left; by eexists.
  - apply Hdata. reflexivity.
Defined.
